(** * roll_stats: failure probability of crafting checks

    A shallow embedding of [main.py] and the properties of its dice-check
    state machine.

    Modelling conventions.
    - Python integers are [Z].  The numpy arrays built by [roll] and
      [make_checks] hold 64-bit signed integers: [randint] refuses bounds
      outside that type, adding a Python integer outside it to an array
      raises [OverflowError], and a sum inside an array wraps around.  The
      comparison of an array with a Python integer is exact for every
      integer.
    - The process-wide generator [np.random] is a [world] component: an
      arbitrary infinite sequence of raw draws together with a cursor.
      [randint] reduces each raw draw into the requested range, so every
      sequence of in-range values is produced by some sequence of raw draws.
    - The recursion of [craft] is bounded by fuel: the number of nested
      frames of [craft] that the interpreter allows.  [OutOfFuel] is the
      outcome of a call that needs more frames than that.
    - The world also carries counters that the program cannot observe (the
      number of check results the [for] loop of [craft] has looked at, the
      number of [craft] frames entered) and the lines printed so far. *)

From Stdlib Require Import ZArith List Bool String Ascii Lia.
From Stdlib Require Import DecimalString.
From Stdlib Require Import Uint63 PrimFloat FloatOps SpecFloat.
Import ListNotations.

Open Scope Z_scope.

(* ================================================================= *)
(** * Exceptions, outcomes and the world *)

Inductive exn : Type :=
| ValueError (msg : string)
| ZeroDivisionError (msg : string)
| OverflowError (msg : string).

Inductive outcome (A : Type) : Type :=
| Return (a : A)
| Raise (e : exn)
| OutOfFuel.

Arguments Return {A} a.
Arguments Raise {A} e.
Arguments OutOfFuel {A}.

Record world : Type := mkWorld {
  entropy : nat -> Z;      (* raw draws of the global generator *)
  cursor : nat;            (* how many of them have been taken *)
  processed : nat;         (* check results looked at by craft's loop *)
  frames : nat;            (* craft frames entered *)
  stdout : list string     (* lines printed, oldest first *)
}.

Definition M (A : Type) : Type := world -> outcome A * world.

Definition ret {A} (a : A) : M A := fun w => (Return a, w).

Definition raise {A} (e : exn) : M A := fun w => (Raise e, w).

Definition out_of_fuel {A} : M A := fun w => (OutOfFuel, w).

Definition bind {A B} (c : M A) (k : A -> M B) : M B :=
  fun w =>
    match c w with
    | (Return a, w') => k a w'
    | (Raise e, w') => (Raise e, w')
    | (OutOfFuel, w') => (OutOfFuel, w')
    end.

Notation "x <- c ;; k" := (bind c (fun x => k))
  (at level 61, c at next level, right associativity).
Notation "c ;;; k" := (bind c (fun _ => k))
  (at level 61, right associativity).

Definition tick (n : nat) : M unit :=
  fun w => (Return tt,
            mkWorld (entropy w) (cursor w) (processed w + n) (frames w) (stdout w)).

Definition enter_frame : M unit :=
  fun w => (Return tt,
            mkWorld (entropy w) (cursor w) (processed w) (S (frames w)) (stdout w)).

Definition print (line : string) : M unit :=
  fun w => (Return tt,
            mkWorld (entropy w) (cursor w) (processed w) (frames w)
                    (stdout w ++ [line])).

(* ================================================================= *)
(** * 64-bit integers in arrays *)

Definition int64_min : Z := -9223372036854775808.

Definition int64_max : Z := 9223372036854775807.

Definition fits_int64 (z : Z) : bool := (int64_min <=? z) && (z <=? int64_max).

(** The value an array element takes when a sum leaves the type. *)
Definition wrap_int64 (z : Z) : Z :=
  (z - int64_min) mod 18446744073709551616 + int64_min.

Definition string_of_Z (z : Z) : string :=
  NilZero.string_of_int (Z.to_int z).

(** The exception raised when a Python integer that does not fit the
    element type meets an array. *)
Definition overflow_error (z : Z) : exn :=
  OverflowError ("Python integer " ++ string_of_Z z ++ " out of bounds for int64").

(** [array + z]: the Python integer is converted to the element type first,
    whatever the length of the array, then added to every element. *)
Definition add_scalar (array : list Z) (z : Z) : M (list Z) :=
  if fits_int64 z then ret (map (fun x => wrap_int64 (x + z)) array)
  else raise (overflow_error z).

(* ================================================================= *)
(** * The generator: [np.random.randint(low, high, size=size)] *)

(** The [i]-th value of a bulk draw that starts at cursor [c]. *)
Definition draw (e : nat -> Z) (c : nat) (low high : Z) (i : nat) : Z :=
  low + (e (c + i)%nat) mod (high - low).

(** An empty request returns the empty array before the bounds are looked
    at.  Otherwise the bounds must lie in the element type ([high] is
    exclusive), the half-open range must not be empty, and the size must not
    be negative, in this order.  A successful call takes [size] raw draws. *)
Definition randint (low high size : Z) : M (list Z) :=
  fun w =>
    if size =? 0 then (Return [], w)
    else if low <? int64_min then
      (Raise (ValueError "low is out of bounds for int64"), w)
    else if int64_max <? high - 1 then
      (Raise (ValueError "high is out of bounds for int64"), w)
    else if high <=? low then (Raise (ValueError "low >= high"), w)
    else if size <? 0 then
      (Raise (ValueError "negative dimensions are not allowed"), w)
    else
      let n := Z.to_nat size in
      (Return (map (draw (entropy w) (cursor w) low high) (seq 0 n)),
       mkWorld (entropy w) (cursor w + n) (processed w) (frames w) (stdout w)).

(* ================================================================= *)
(** * [roll] and [make_checks] *)

Definition roll (die number : Z) : M (list Z) :=
  randint 1 (die + 1) number.

Definition make_checks (dc modifier number : Z) : M (list bool) :=
  rolls <- roll 20 number ;;
  sums <- add_scalar rolls modifier ;;
  ret (map (fun x => x >=? dc) sums).

(* ================================================================= *)
(** * [craft] *)

Definition ROLL_CHUNK : Z := 100.

(** Where the attempt stands after a check result has been handled. *)
Inductive attempt : Type :=
| InProgress (n_successes n_consec_fails : Z)
| Succeeded
| Failed.

(** The body of the [for] loop: one check result. *)
Definition check_step (successes_required n_successes n_consec_fails : Z)
           (result : bool) : attempt :=
  if result then
    let n_successes := n_successes + 1 in
    let n_consec_fails := 0 in
    if n_successes >=? successes_required then Succeeded
    else InProgress n_successes n_consec_fails
  else
    let n_consec_fails := n_consec_fails + 1 in
    if n_consec_fails >=? 3 then Failed
    else InProgress n_successes n_consec_fails.

(** The [for] loop over one array of results.  The second component counts
    the results the loop has looked at; [InProgress] means the array ran out. *)
Fixpoint for_loop (successes_required : Z) (results : list bool)
         (n_successes n_consec_fails : Z) (seen : nat) : attempt * nat :=
  match results with
  | [] => (InProgress n_successes n_consec_fails, seen)
  | result :: rest =>
      match check_step successes_required n_successes n_consec_fails result with
      | InProgress s f => for_loop successes_required rest s f (S seen)
      | Succeeded => (Succeeded, S seen)
      | Failed => (Failed, S seen)
      end
  end.

(** [craft] with the size of the batch as a parameter. *)
Fixpoint craft_chunked (chunk : Z) (fuel : nat)
         (dc modifier successes_required n_successes n_consec_fails : Z)
  : M bool :=
  match fuel with
  | O => out_of_fuel
  | S fuel' =>
      enter_frame ;;;
      results <- make_checks dc modifier chunk ;;
      match for_loop successes_required results n_successes n_consec_fails 0 with
      | (Succeeded, seen) => tick seen ;;; ret true
      | (Failed, seen) => tick seen ;;; ret false
      | (InProgress s f, seen) =>
          tick seen ;;;
          craft_chunked chunk fuel' dc modifier successes_required s f
      end
  end.

Definition craft (fuel : nat)
           (dc modifier successes_required n_successes n_consec_fails : Z)
  : M bool :=
  craft_chunked ROLL_CHUNK fuel dc modifier successes_required
                n_successes n_consec_fails.

(* ================================================================= *)
(** * The experiment: the body of [if __name__ == "__main__"] *)

(** [[craft(...) for _ in range(n)]]: every attempt starts from the default
    [n_successes = 0], [n_consec_fails = 0]. *)
Fixpoint comprehension (fuel n : nat) (dc modifier successes_required : Z)
  : M (list bool) :=
  match n with
  | O => ret []
  | S n' =>
      b <- craft fuel dc modifier successes_required 0 0 ;;
      bs <- comprehension fuel n' dc modifier successes_required ;;
      ret (b :: bs)
  end.

(** [sum] over a list of booleans: [True] counts 1, [False] counts 0. *)
Definition sum (l : list bool) : Z :=
  fold_left (fun acc b => acc + Z.b2z b) l 0.

Definition len {A} (l : list A) : Z := Z.of_nat (List.length l).

(** A non-negative Python integer as a binary64 float (exact below 2^53,
    which bounds every length and count met here). *)
Definition float_of_int (z : Z) : float := of_uint63 (Uint63.of_Z z).

(** The nearest integer to [m * 2^e], ties to even. *)
Definition round_half_even (m : positive) (e : Z) : Z :=
  if 0 <=? e then Z.pos m * 2 ^ e
  else
    let d := 2 ^ (- e) in
    let q := Z.pos m / d in
    let r := Z.pos m mod d in
    match 2 * r ?= d with
    | Lt => q
    | Gt => q + 1
    | Eq => if Z.even q then q else q + 1
    end.

(** The format specification [:.0f]: no digit after the point. *)
Definition format_0f (x : float) : string :=
  match Prim2SF x with
  | S754_nan => "nan"
  | S754_infinity s => if s then "-inf" else "inf"
  | S754_zero s => if s then "-0" else "0"
  | S754_finite s m e =>
      ((if s then "-" else "") ++ string_of_Z (round_half_even m e))%string
  end.

(** The value between the braces of the f-string. *)
Definition percent_failure (total n : Z) : float :=
  ((1 - float_of_int total / float_of_int n) * 100)%float.

Definition main_with (fuel : nat) (dc modifier successes_required n_repeats : Z)
  : M unit :=
  repeated_craft <-
    comprehension fuel (Z.to_nat n_repeats) dc modifier successes_required ;;
  if len repeated_craft =? 0 then
    raise (ZeroDivisionError "division by zero")
  else
    print ("percent failure:"
             ++ format_0f (percent_failure (sum repeated_craft)
                                           (len repeated_craft)))%string.

Definition main (fuel : nat) : M unit := main_with fuel 18 9 8 10000.

(** A world in which nothing has happened yet. *)
Definition fresh (e : nat -> Z) : world := mkWorld e 0 0 0 [].

(* ================================================================= *)
(** * Notions used to state the properties *)

Definition terminal (t : attempt) : bool :=
  match t with
  | InProgress _ _ => false
  | _ => true
  end.

Definition verdict (b : bool) : attempt := if b then Succeeded else Failed.

(** An upper bound on the number of results still needed from the state
    [(n_successes, n_consec_fails)]: every success that does not end the
    attempt costs three units, every failure one. *)
Definition budget (successes_required n_successes n_consec_fails : Z) : Z :=
  3 * Z.max 1 (successes_required - n_successes) - Z.min n_consec_fails 2.

(** The transition rule as a function on attempts. *)
Definition transition (successes_required : Z) (t : attempt) (result : bool)
  : attempt :=
  match t with
  | InProgress s f => check_step successes_required s f result
  | Succeeded => Succeeded
  | Failed => Failed
  end.

(** The check result computed from the raw draw at absolute position [i]. *)
Definition nth_check (e : nat -> Z) (dc modifier : Z) (i : nat) : bool :=
  wrap_int64 (1 + e i mod 20 + modifier) >=? dc.

(** The modifiers that every roll of the d20 can be added to without
    leaving the element type. *)
Definition safe_modifier (modifier : Z) : bool :=
  (int64_min <=? modifier) && (modifier <=? int64_max - 20).


(** The [n] check results from cursor [c] on. *)
Definition checks_from (e : nat -> Z) (c : nat) (dc modifier : Z) (n : nat)
  : list bool :=
  map (fun i => nth_check e dc modifier (c + i)) (seq 0 n).

(** The world after a [craft] frame that drew [d] values and looked at
    [k] results, or after [j] such frames. *)
Definition after (w : world) (d k j : nat) : world :=
  mkWorld (entropy w) (cursor w + d) (processed w + k) (frames w + j) (stdout w).

(** Does the list contain three failures in a row? *)
Fixpoint has_fail_run (results : list bool) : bool :=
  match results with
  | [] => false
  | b :: rest =>
      match b, rest with
      | false, false :: false :: _ => true
      | _, _ => has_fail_run rest
      end
  end.

(** The state of an attempt that started from the defaults and has handled
    [results]. *)
Definition state_after (successes_required : Z) (results : list bool) : attempt :=
  fst (for_loop successes_required results 0 0 0).

(** The specification's reading of an attempt: the transition rule folded
    over the results, one at a time, from the initial state. *)
Definition unbatched (successes_required : Z) (results : list bool) : attempt :=
  fold_left (transition successes_required) results (InProgress 0 0).

(** The specification's "configuration error": an exception that reports a
    bad argument value, which in Python is a [ValueError].  An arithmetic
    error such as [ZeroDivisionError] or [OverflowError] is not one. *)
Definition is_configuration_error (e : exn) : bool :=
  match e with
  | ValueError _ => true
  | ZeroDivisionError _ => false
  | OverflowError _ => false
  end.

(** The number of failed attempts among the outcomes. *)
Definition failures (outcomes : list bool) : Z :=
  Z.of_nat (count_occ bool_dec outcomes false).

(** [p] is an integer nearest to [100 * failed / trials]. *)
Definition nearest_percent (p failed trials : Z) : Prop :=
  2 * Z.abs (p * trials - 100 * failed) <= trials.

(** The integer that [format_0f] prints for a float that is not negative,
    infinite or a NaN. *)
Definition printed_integer (x : float) : option Z :=
  match Prim2SF x with
  | S754_zero false => Some 0
  | S754_finite false m e => Some (round_half_even m e)
  | _ => None
  end.

(** The percentage computed from [total] successes out of 10000 prints as an
    integer of [0, 100] nearest to the exact percentage of failures. *)
Definition percent_ok (total : Z) : bool :=
  match printed_integer (percent_failure total 10000) with
  | Some p =>
      (0 <=? p) && (p <=? 100)
      && (2 * Z.abs (p * 10000 - 100 * (10000 - total)) <=? 10000)
  | None => false
  end.

(** The number of successes in a list of results. *)
Definition successes (results : list bool) : Z :=
  Z.of_nat (count_occ bool_dec results true).

(** The number of failures a list of results starts with, and the number it
    ends with. *)
Fixpoint leading_fails (results : list bool) : Z :=
  match results with
  | false :: rest => 1 + leading_fails rest
  | _ => 0
  end.

Definition trailing_fails (results : list bool) : Z :=
  leading_fails (rev results).

(** [no_better t t']: the attempt [t'] stands at least as well as [t]. *)
Definition no_better (t t' : attempt) : Prop :=
  match t, t' with
  | Failed, _ => True
  | _, Succeeded => True
  | InProgress s f, InProgress s' f' => s <= s' /\ 0 <= f' <= f
  | _, _ => False
  end.

(** The value of an attempt that is settled by the batch of 100 results
    drawn at cursor [c]. *)
Definition block_outcome (e : nat -> Z) (c : nat) (dc modifier req : Z) : bool :=
  match fst (for_loop req (checks_from e c dc modifier 100) 0 0 0) with
  | Succeeded => true
  | _ => false
  end.

(** With [n] repeats the two extreme percentages print as 100 and as 0. *)
Definition extremes_ok (n : Z) : bool :=
  (format_0f (percent_failure 0 n) =? "100")%string
  && (format_0f (percent_failure n n) =? "0")%string.

(** Two sample generators: rolls of 1 only, and three rolls of 1 followed by
    rolls of 20. *)
Definition all_low (i : nat) : Z := 0.

Definition low_then_high (i : nat) : Z := if (i <? 3)%nat then 0 else 19.

(* ================================================================= *)
(** * The state machine on a list of check results *)

Lemma budget_pos req s f : 1 <= budget req s f.
Proof. unfold budget. lia. Qed.

Lemma check_step_true req s f :
  check_step req s f true =
  if req <=? s + 1 then Succeeded else InProgress (s + 1) 0.
Proof. unfold check_step. now rewrite Z.geb_leb. Qed.

Lemma check_step_false req s f :
  check_step req s f false =
  if 3 <=? f + 1 then Failed else InProgress s (f + 1).
Proof. unfold check_step. now rewrite Z.geb_leb. Qed.

Ltac step_cases :=
  match goal with
  | |- context [check_step ?r ?s ?f ?b] =>
      destruct b;
      [ rewrite (check_step_true r s f); destruct (Z.leb_spec r (s + 1))
      | rewrite (check_step_false r s f); destruct (Z.leb_spec 3 (f + 1)) ]
  | H : context [check_step ?r ?s ?f ?b] |- _ =>
      destruct b;
      [ rewrite (check_step_true r s f) in H; destruct (Z.leb_spec r (s + 1))
      | rewrite (check_step_false r s f) in H; destruct (Z.leb_spec 3 (f + 1)) ]
  end.

(** A step that leaves the attempt in progress uses up budget. *)
Lemma check_step_in_progress req s f b s' f' :
  check_step req s f b = InProgress s' f' ->
  budget req s' f' + 1 <= budget req s f /\ s <= s' /\
  (if b then s' = s + 1 /\ f' = 0 else s' = s /\ f' = f + 1 /\ f' <= 2) /\
  s' < Z.max req (s + 1).
Proof.
  intros H. step_cases; inversion H; subst; unfold budget; lia.
Qed.

Lemma for_loop_in_progress req l : forall s f p s' f' k,
  for_loop req l s f p = (InProgress s' f', k) ->
  k = (p + List.length l)%nat /\
  budget req s' f' + Z.of_nat (List.length l) <= budget req s f /\
  s <= s'.
Proof.
  induction l as [|b l IH]; simpl; intros s f p s' f' k H.
  - inversion H; subst. repeat split; lia.
  - destruct (check_step req s f b) as [s1 f1| |] eqn:E; try discriminate.
    apply check_step_in_progress in E. apply IH in H. lia.
Qed.

Lemma for_loop_seen req l : forall s f p t k,
  for_loop req l s f p = (t, k) ->
  (p <= k <= p + List.length l)%nat /\ (terminal t = true -> (p < k)%nat).
Proof.
  induction l as [|b l IH]; simpl; intros s f p t k H.
  - inversion H; subst. simpl. split; [lia | discriminate].
  - destruct (check_step req s f b) as [s1 f1| |] eqn:E.
    + apply IH in H. lia.
    + inversion H; subst. lia.
    + inversion H; subst. lia.
Qed.

(** Enough results always settle the attempt. *)
Lemma for_loop_settles req l s f p :
  budget req s f <= Z.of_nat (List.length l) ->
  terminal (fst (for_loop req l s f p)) = true.
Proof.
  intros Hb. destruct (for_loop req l s f p) as [t k] eqn:E.
  destruct t as [s' f'| |]; simpl; trivial.
  apply for_loop_in_progress in E. pose proof (budget_pos req s' f'). lia.
Qed.

Lemma for_loop_app req l1 l2 : forall s f p,
  for_loop req (l1 ++ l2) s f p =
  match for_loop req l1 s f p with
  | (InProgress s' f', k) => for_loop req l2 s' f' k
  | r => r
  end.
Proof.
  induction l1 as [|b l1 IH]; simpl; intros s f p; trivial.
  destruct (check_step req s f b); trivial.
Qed.

(** The counter of results seen is only an offset. *)
Lemma for_loop_offset req l : forall s f p,
  for_loop req l s f p =
  (fst (for_loop req l s f 0), (p + snd (for_loop req l s f 0))%nat).
Proof.
  induction l as [|b l IH]; simpl; intros s f p.
  - f_equal. lia.
  - destruct (check_step req s f b) as [s1 f1| |].
    + rewrite (IH s1 f1 (S p)), (IH s1 f1 1%nat). simpl. f_equal. lia.
    + simpl. f_equal. lia.
    + simpl. f_equal. lia.
Qed.

Lemma fold_transition_terminal req l t :
  terminal t = true -> fold_left (transition req) l t = t.
Proof.
  induction l as [|b l IH]; simpl; trivial.
  destruct t; simpl; try discriminate; intros _; now apply IH.
Qed.

Lemma for_loop_fold req l : forall s f p,
  fst (for_loop req l s f p) = fold_left (transition req) l (InProgress s f).
Proof.
  induction l as [|b l IH]; simpl; intros s f p; trivial.
  destruct (check_step req s f b) as [s1 f1| |]; simpl.
  - apply IH.
  - now rewrite fold_transition_terminal.
  - now rewrite fold_transition_terminal.
Qed.

(* ================================================================= *)
(** * 64-bit sums *)

Lemma fits_int64_spec z : fits_int64 z = true <-> int64_min <= z <= int64_max.
Proof.
  unfold fits_int64. rewrite andb_true_iff, !Z.leb_le. reflexivity.
Qed.

Lemma fits_int64_false z :
  fits_int64 z = false <-> z < int64_min \/ int64_max < z.
Proof.
  unfold fits_int64. rewrite andb_false_iff, !Z.leb_gt. reflexivity.
Qed.

Lemma safe_modifier_spec m :
  safe_modifier m = true <-> int64_min <= m <= int64_max - 20.
Proof.
  unfold safe_modifier. rewrite andb_true_iff, !Z.leb_le. reflexivity.
Qed.

Lemma safe_modifier_fits m : safe_modifier m = true -> fits_int64 m = true.
Proof.
  rewrite safe_modifier_spec, fits_int64_spec. lia.
Qed.

(** A sum inside the type is kept. *)
Lemma wrap_int64_inside z : int64_min <= z <= int64_max -> wrap_int64 z = z.
Proof.
  unfold wrap_int64, int64_min, int64_max. intros H.
  rewrite Z.mod_small; lia.
Qed.

(** A sum that leaves the type at the top comes back at the bottom. *)
Lemma wrap_int64_above z :
  int64_max < z <= int64_max + 18446744073709551616 ->
  wrap_int64 z = z - 18446744073709551616.
Proof.
  unfold wrap_int64, int64_min, int64_max. intros H.
  replace (z - -9223372036854775808)
    with (z - -9223372036854775808 - 18446744073709551616
          + 1 * 18446744073709551616) by lia.
  rewrite Z.mod_add by lia. rewrite Z.mod_small; lia.
Qed.

Lemma wrap_int64_range z : int64_min <= wrap_int64 z <= int64_max.
Proof.
  unfold wrap_int64, int64_min, int64_max.
  pose proof (Z.mod_pos_bound (z - -9223372036854775808) 18446744073709551616).
  lia.
Qed.

Lemma roll_value_range (e : nat -> Z) i : 1 <= 1 + e i mod 20 <= 20.
Proof. pose proof (Z.mod_pos_bound (e i) 20). lia. Qed.

(** With a modifier that is safe, a check is the comparison of the exact
    sum. *)
Lemma nth_check_exact e dc m i :
  safe_modifier m = true ->
  nth_check e dc m i = (1 + e i mod 20 + m >=? dc).
Proof.
  intros H. apply safe_modifier_spec in H. unfold nth_check.
  pose proof (roll_value_range e i).
  rewrite wrap_int64_inside; [reflexivity|].
  unfold int64_min, int64_max in *. lia.
Qed.

(* ================================================================= *)
(** * What one call of [make_checks] delivers *)

Lemma after_eq w d k j d' k' j' :
  d = d' -> k = k' -> j = j' -> after w d k j = after w d' k' j'.
Proof. now intros -> -> ->. Qed.

Lemma after_after w d k j d' k' j' :
  after (after w d k j) d' k' j' = after w (d + d') (k + k') (j + j').
Proof. unfold after; simpl. f_equal; lia. Qed.

Lemma after_nothing w : after w 0 0 0 = w.
Proof. destruct w. unfold after. cbn. f_equal; lia. Qed.

Lemma checks_from_length e c dc m n : List.length (checks_from e c dc m n) = n.
Proof. unfold checks_from. now rewrite length_map, length_seq. Qed.

Lemma map_seq_from {A} (g : nat -> A) n a :
  map g (seq a n) = map (fun i => g (a + i)%nat) (seq 0 n).
Proof.
  revert a g. induction n as [|n IH]; intros a g; simpl; trivial.
  rewrite Nat.add_0_r. f_equal.
  rewrite (IH (S a) g), (IH 1%nat (fun i => g (a + i)%nat)).
  apply map_ext. intros i. f_equal. lia.
Qed.

Lemma checks_from_app e c dc m n1 n2 :
  checks_from e c dc m (n1 + n2) =
  checks_from e c dc m n1 ++ checks_from e (c + n1) dc m n2.
Proof.
  unfold checks_from. rewrite seq_app, map_app. apply f_equal.
  rewrite map_seq_from. apply map_ext. intros i.
  now replace (c + (0 + n1 + i))%nat with (c + n1 + i)%nat by lia.
Qed.

(** The twenty-sided roll of a positive or zero number of dice. *)
Lemma roll_run number w :
  0 <= number ->
  roll 20 number w =
  (Return (map (fun i => 1 + entropy w (cursor w + i)%nat mod 20)
               (seq 0 (Z.to_nat number))),
   after w (Z.to_nat number) 0 0).
Proof.
  intros Hn. unfold roll, randint.
  destruct (Z.eqb_spec number 0) as [->|Hz].
  - cbn [Z.to_nat seq map]. now rewrite after_nothing.
  - change (1 <? int64_min) with false.
    change (int64_max <? 20 + 1 - 1) with false.
    change (20 + 1 <=? 1) with false. cbv iota.
    destruct (Z.ltb_spec number 0); [lia|].
    apply (f_equal2 pair).
    + apply f_equal. apply map_ext. intros i. unfold draw.
      change (20 + 1 - 1) with 20. reflexivity.
    + unfold after. f_equal; lia.
Qed.

Lemma make_checks_run dc m number w :
  0 <= number ->
  fits_int64 m = true ->
  make_checks dc m number w =
  (Return (checks_from (entropy w) (cursor w) dc m (Z.to_nat number)),
   after w (Z.to_nat number) 0 0).
Proof.
  intros Hn Hm. unfold make_checks, bind. rewrite roll_run by assumption.
  unfold add_scalar. rewrite Hm. unfold ret.
  apply (f_equal (fun l => (Return l, after w (Z.to_nat number) 0 0))).
  unfold checks_from. rewrite !map_map. apply map_ext. intros i.
  unfold nth_check. reflexivity.
Qed.

(** A modifier outside the element type: the batch is drawn, then the sum
    raises. *)
Lemma make_checks_overflow dc m number w :
  0 <= number ->
  fits_int64 m = false ->
  make_checks dc m number w =
  (Raise (overflow_error m), after w (Z.to_nat number) 0 0).
Proof.
  intros Hn Hm. unfold make_checks, bind. rewrite roll_run by assumption.
  unfold add_scalar. rewrite Hm. reflexivity.
Qed.

(** One frame of [craft]: a batch is drawn, then the loop runs over it. *)
Lemma craft_chunked_step chunk fuel dc m req s f w :
  0 < chunk ->
  fits_int64 m = true ->
  craft_chunked chunk (S fuel) dc m req s f w =
  let n := Z.to_nat chunk in
  match for_loop req (checks_from (entropy w) (cursor w) dc m n) s f 0 with
  | (Succeeded, k) => (Return true, after w n k 1)
  | (Failed, k) => (Return false, after w n k 1)
  | (InProgress s' f', k) =>
      craft_chunked chunk fuel dc m req s' f' (after w n k 1)
  end.
Proof.
  intros Hc Hm. cbn [craft_chunked]. unfold bind at 1. cbn [enter_frame].
  unfold bind at 1. rewrite make_checks_run by (assumption || lia).
  cbn [entropy cursor].
  destruct (for_loop req _ s f 0) as [[s' f'| |] k];
    unfold bind, tick, ret, after; cbn;
    rewrite ?Nat.add_0_r; repeat f_equal; lia.
Qed.

Lemma craft_chunked_overflow chunk fuel dc m req s f w :
  0 < chunk ->
  fits_int64 m = false ->
  craft_chunked chunk (S fuel) dc m req s f w =
  (Raise (overflow_error m), after w (Z.to_nat chunk) 0 1).
Proof.
  intros Hc Hm. cbn [craft_chunked]. unfold bind at 1. cbn [enter_frame].
  unfold bind at 1. rewrite make_checks_overflow by (assumption || lia).
  unfold after. cbn [entropy cursor processed frames stdout].
  apply (f_equal (fun w' => (Raise (overflow_error m), w'))).
  f_equal; lia.
Qed.

(** A settled attempt is not changed by results that come later. *)
Lemma for_loop_longer req e c dc m n1 n2 s f t k :
  (n1 <= n2)%nat ->
  terminal t = true ->
  for_loop req (checks_from e c dc m n1) s f 0 = (t, k) ->
  for_loop req (checks_from e c dc m n2) s f 0 = (t, k).
Proof.
  intros Hle Ht H. replace n2 with (n1 + (n2 - n1))%nat by lia.
  rewrite checks_from_app, for_loop_app, H.
  destruct t; trivial; discriminate.
Qed.

(** [craft] as the plain loop over the results the generator delivers: with
    fuel for the budget, [j] frames are entered, the last of them looks at
    one result at least, and the value returned is the verdict the loop
    reaches on the [n * j] results drawn. *)
Lemma craft_chunked_returns chunk dc m req : forall fuel s f w,
  0 < chunk ->
  fits_int64 m = true ->
  budget req s f <= chunk * Z.of_nat fuel ->
  exists b j k,
    (1 <= j <= fuel)%nat /\
    (Z.to_nat chunk * (j - 1) < k <= Z.to_nat chunk * j)%nat /\
    craft_chunked chunk fuel dc m req s f w =
      (Return b, after w (Z.to_nat chunk * j) k j) /\
    for_loop req (checks_from (entropy w) (cursor w) dc m (Z.to_nat chunk * j))
             s f 0 = (verdict b, k).
Proof.
  induction fuel as [|fuel IH]; intros s f w Hc Hm Hb.
  - pose proof (budget_pos req s f). lia.
  - rewrite craft_chunked_step by assumption. cbv zeta.
    set (n := Z.to_nat chunk) in *.
    destruct (for_loop req (checks_from (entropy w) (cursor w) dc m n) s f 0)
      as [t k0] eqn:E.
    pose proof (for_loop_seen _ _ _ _ _ _ _ E) as [Hk Hk'].
    rewrite checks_from_length in Hk.
    destruct t as [s' f'| |].
    + apply for_loop_in_progress in E as E'.
      rewrite checks_from_length in E'. destruct E' as (-> & Hbud & _).
      destruct (IH s' f' (after w n (0 + n) 1) Hc Hm)
        as (b & j & k & Hj & Hkj & Hrun & Hloop).
      { lia. }
      assert (Hj1 : (n * j = n * (j - 1) + n)%nat).
      { destruct j as [|j']; [lia|]. replace (S j' - 1)%nat with j' by lia. lia. }
      exists b, (S j), (n + k)%nat.
      replace (S j - 1)%nat with j by lia.
      split; [lia|]. split; [lia|]. split.
      * rewrite Hrun, after_after.
        apply (f_equal (fun w' => (Return b, w'))). apply after_eq; lia.
      * replace (n * S j)%nat with (n + n * j)%nat by lia.
        rewrite checks_from_app, for_loop_app, E.
        rewrite for_loop_offset. cbn [entropy cursor after] in Hloop.
        rewrite Hloop. reflexivity.
    + exists true, 1%nat, k0. simpl in Hk'. specialize (Hk' eq_refl).
      split; [lia|]. split; [lia|]. split.
      * apply (f_equal (fun w' => (Return true, w'))). apply after_eq; lia.
      * rewrite Nat.mul_1_r. exact E.
    + exists false, 1%nat, k0. simpl in Hk'. specialize (Hk' eq_refl).
      split; [lia|]. split; [lia|]. split.
      * apply (f_equal (fun w' => (Return false, w'))). apply after_eq; lia.
      * rewrite Nat.mul_1_r. exact E.
Qed.

(** The verdict and the number of results looked at do not depend on how
    long a prefix of the results is taken, once it covers the budget. *)
Lemma for_loop_any_prefix req e c dc m s f n1 n2 b k :
  terminal (fst (for_loop req (checks_from e c dc m n1) s f 0)) = true ->
  for_loop req (checks_from e c dc m n2) s f 0 = (verdict b, k) ->
  for_loop req (checks_from e c dc m n1) s f 0 = (verdict b, k).
Proof.
  intros Ht H2.
  destruct (for_loop req (checks_from e c dc m n1) s f 0) as [t k1] eqn:H1.
  simpl in Ht.
  assert (Hb : terminal (verdict b) = true) by now destruct b.
  pose proof (for_loop_longer req e c dc m n1 (Nat.max n1 n2) s f t k1
                              (Nat.le_max_l _ _) Ht H1) as A.
  pose proof (for_loop_longer req e c dc m n2 (Nat.max n1 n2) s f _ k
                              (Nat.le_max_r _ _) Hb H2) as B.
  congruence.
Qed.

(** Fuel beyond the budget changes nothing. *)
Lemma craft_chunked_more_fuel chunk dc m req extra : forall fuel s f w,
  0 < chunk ->
  fits_int64 m = true ->
  budget req s f <= chunk * Z.of_nat fuel ->
  craft_chunked chunk (fuel + extra) dc m req s f w =
  craft_chunked chunk fuel dc m req s f w.
Proof.
  induction fuel as [|fuel IH]; intros s f w Hc Hm Hb.
  - pose proof (budget_pos req s f). lia.
  - change (S fuel + extra)%nat with (S (fuel + extra)).
    rewrite !craft_chunked_step by assumption. cbv zeta.
    destruct (for_loop req _ s f 0) as [[s' f'| |] k] eqn:E; trivial.
    apply for_loop_in_progress in E. rewrite checks_from_length in E.
    apply IH; [assumption | assumption | lia].
Qed.

Lemma verdict_inj b b' : verdict b = verdict b' -> b = b'.
Proof. destruct b, b'; trivial; discriminate. Qed.

(** The verdict of [craft], with any batch size, is the verdict of the loop
    over any prefix of the results that covers the budget. *)
Lemma craft_chunked_verdict chunk fuel dc m req s f w n :
  0 < chunk ->
  fits_int64 m = true ->
  budget req s f <= chunk * Z.of_nat fuel ->
  budget req s f <= Z.of_nat n ->
  exists b k w',
    craft_chunked chunk fuel dc m req s f w = (Return b, w') /\
    processed w' = (processed w + k)%nat /\
    for_loop req (checks_from (entropy w) (cursor w) dc m n) s f 0
    = (verdict b, k).
Proof.
  intros Hc Hm Hfuel Hn.
  destruct (craft_chunked_returns chunk dc m req fuel s f w Hc Hm Hfuel)
    as (b & j & k & _ & _ & Hrun & Hloop).
  exists b, k, (after w (Z.to_nat chunk * j) k j).
  split; [exact Hrun|]. split; [reflexivity|].
  apply for_loop_any_prefix with (n2 := (Z.to_nat chunk * j)%nat); [|exact Hloop].
  apply for_loop_settles. now rewrite checks_from_length.
Qed.

(* ================================================================= *)
(** * Checks that cannot succeed, checks that cannot fail *)

(** Below the threshold even on a 20: the sum is below it, wrapped or not. *)
Lemma nth_check_hopeless e dc m i :
  dc > m + 20 -> fits_int64 m = true -> nth_check e dc m i = false.
Proof.
  intros H Hm. apply fits_int64_spec in Hm. unfold nth_check.
  rewrite Z.geb_leb. apply Z.leb_gt.
  pose proof (roll_value_range e i) as Hr.
  destruct (Z_le_gt_dec (1 + e i mod 20 + m) int64_max) as [Hle|Hgt].
  - rewrite wrap_int64_inside; unfold int64_min, int64_max in *; lia.
  - rewrite wrap_int64_above; unfold int64_min, int64_max in *; lia.
Qed.

Lemma nth_check_certain e dc m i :
  dc <= m + 1 -> safe_modifier m = true -> nth_check e dc m i = true.
Proof.
  intros H Hm. rewrite nth_check_exact by assumption.
  rewrite Z.geb_leb. pose proof (roll_value_range e i). apply Z.leb_le. lia.
Qed.

Lemma checks_from_hopeless e c dc m n :
  dc > m + 20 -> fits_int64 m = true ->
  checks_from e c dc m n = repeat false n.
Proof.
  intros H Hm. unfold checks_from.
  rewrite (map_ext _ (fun _ => false)) by (intros; now apply nth_check_hopeless).
  now rewrite map_const, length_seq.
Qed.

Lemma checks_from_certain e c dc m n :
  dc <= m + 1 -> safe_modifier m = true ->
  checks_from e c dc m n = repeat true n.
Proof.
  intros H Hm. unfold checks_from.
  rewrite (map_ext _ (fun _ => true)) by (intros; now apply nth_check_certain).
  now rewrite map_const, length_seq.
Qed.

(** Three failures in a row end the attempt, whatever is required. *)
Lemma for_loop_three_failures req rest :
  for_loop req (false :: false :: false :: rest) 0 0 0 = (Failed, 3%nat).
Proof. reflexivity. Qed.

(** On successes only, the loop stops at the required count if the list
    is long enough, and otherwise runs through it. *)
Lemma for_loop_successes req n : forall s f p,
  s < req ->
  for_loop req (repeat true n) s f p =
  if req - s <=? Z.of_nat n then (Succeeded, (p + Z.to_nat (req - s))%nat)
  else (InProgress (s + Z.of_nat n) (if (n =? 0)%nat then f else 0), (p + n)%nat).
Proof.
  induction n as [|n IH]; intros s f p Hs.
  - simpl. destruct (Z.leb_spec (req - s) 0); [lia|].
    f_equal; [f_equal|]; lia.
  - cbn [repeat for_loop]. rewrite check_step_true.
    destruct (Z.leb_spec req (s + 1)).
    + destruct (Z.leb_spec (req - s) (Z.of_nat (S n))); [|lia].
      f_equal. replace (req - s) with 1 by lia. simpl. lia.
    + rewrite IH by assumption.
      destruct (Z.leb_spec (req - (s + 1)) (Z.of_nat n));
        destruct (Z.leb_spec (req - s) (Z.of_nat (S n))); try lia.
      * f_equal. lia.
      * f_equal; [|lia]. f_equal; [lia|].
        now destruct n.
Qed.

Lemma craft_hopeless fuel dc m req w :
  dc > m + 20 ->
  fits_int64 m = true ->
  craft (S fuel) dc m req 0 0 w = (Return false, after w 100 3 1).
Proof.
  intros H Hm. unfold craft. rewrite craft_chunked_step by (reflexivity || assumption).
  cbv zeta. rewrite checks_from_hopeless by assumption.
  change (Z.to_nat ROLL_CHUNK) with (3 + 97)%nat.
  cbn [repeat Nat.add]. rewrite for_loop_three_failures. reflexivity.
Qed.

Lemma craft_overflow fuel dc m req s f w :
  fits_int64 m = false ->
  craft (S fuel) dc m req s f w = (Raise (overflow_error m), after w 100 0 1).
Proof.
  intros Hm. unfold craft. now rewrite craft_chunked_overflow.
Qed.

(* ================================================================= *)
(** * Properties of [craft] *)

Example overflow_error_message :
  overflow_error 9223372036854775808
  = OverflowError "Python integer 9223372036854775808 out of bounds for int64".
Proof. reflexivity. Qed.

(** C2, as the code has it.  When [dc > modifier + 20] and the modifier
    fits the 64-bit element type, no roll of the d20 reaches the threshold
    (a sum that wraps around falls below it too): for every required number
    of successes the attempt returns [False], and its loop has looked at
    exactly three results of the one batch of 100 that was drawn.  With a
    modifier outside the type the sum raises [OverflowError] once the batch
    is drawn, and no result is looked at. *)
Theorem craft_hopeless_fails_after_three :
  forall fuel dc modifier successes_required w,
    dc > modifier + 20 ->
    craft (S fuel) dc modifier successes_required 0 0 w
    = if fits_int64 modifier then (Return false, after w 100 3 1)
      else (Raise (overflow_error modifier), after w 100 0 1).
Proof.
  intros fuel dc m req w H. destruct (fits_int64 m) eqn:Hm.
  - now apply craft_hopeless.
  - now apply craft_overflow.
Qed.

Lemma craft_hopeless_fails_after_three_witness :
  21 > 0 + 20 /\
  craft 1 21 0 5 0 0 (fresh (fun _ => 7))
  = (Return false, after (fresh (fun _ => 7)) 100 3 1).
Proof.
  split; [lia | apply (craft_hopeless_fails_after_three 0 21 0 5); lia].
Defined.

(** C2, as the specification words it, fails: with modifier 2^63 and
    threshold 2^63 + 21 the attempt does not return [False], it raises. *)
Lemma craft_hopeless_may_raise :
  9223372036854775829 > 9223372036854775808 + 20 /\
  craft 1 9223372036854775829 9223372036854775808 5 0 0 (fresh all_low)
  = (Raise (overflow_error 9223372036854775808), after (fresh all_low) 100 0 1)
  /\ ~ (exists w',
          craft 1 9223372036854775829 9223372036854775808 5 0 0 (fresh all_low)
          = (Return false, w')).
Proof.
  assert (E : craft 1 9223372036854775829 9223372036854775808 5 0 0
                    (fresh all_low)
              = (Raise (overflow_error 9223372036854775808),
                 after (fresh all_low) 100 0 1))
    by (apply craft_overflow; reflexivity).
  split; [lia|]. split; [exact E|].
  intros (w' & H). rewrite E in H. discriminate H.
Qed.




(** With a required count of one or less, the first three results decide. *)
Lemma for_loop_first_success req c0 c1 c2 rest :
  req <= 1 ->
  for_loop req (c0 :: c1 :: c2 :: rest) 0 0 0 =
  (verdict (c0 || c1 || c2),
   if c0 then 1%nat else if c1 then 2%nat else 3%nat).
Proof.
  intros H.
  assert (T : forall f, check_step req 0 f true = Succeeded).
  { intros f. rewrite check_step_true. destruct (Z.leb_spec req (0 + 1)); [trivial | lia]. }
  assert (F0 : check_step req 0 0 false = InProgress 0 1) by reflexivity.
  assert (F1 : check_step req 0 1 false = InProgress 0 2) by reflexivity.
  assert (F2 : check_step req 0 2 false = Failed) by reflexivity.
  destruct c0, c1, c2;
    repeat (cbn [for_loop]; rewrite ?T, ?F0, ?F1, ?F2); reflexivity.
Qed.

Lemma checks_from_three e c dc m n :
  checks_from e c dc m (3 + n) =
  nth_check e dc m c :: nth_check e dc m (c + 1) :: nth_check e dc m (c + 2)
    :: checks_from e (c + 3) dc m n.
Proof.
  rewrite checks_from_app. unfold checks_from at 1. cbn [seq map app].
  now rewrite Nat.add_0_r.
Qed.

(** C1, as the code has it.  [craft] has no guard on [successes_required]:
    with a required count of zero or less it still draws a batch of 100
    rolls and runs its loop, exactly as it does for a required count of one.
    It returns [True] at the first success among the first three results,
    and [False] after three failures; between one and three results are
    looked at.  (With a modifier outside the 64-bit element type the sum
    raises before the loop, as for every required count.) *)
Theorem craft_nonpositive_requirement :
  forall fuel dc modifier successes_required w,
    successes_required <= 0 ->
    let c i := nth_check (entropy w) dc modifier (cursor w + i) in
    craft (S fuel) dc modifier successes_required 0 0 w
    = (if fits_int64 modifier
       then (Return (c 0 || c 1 || c 2)%nat,
             after w 100 (if c 0%nat then 1 else if c 1%nat then 2 else 3) 1)
       else (Raise (overflow_error modifier), after w 100 0 1))
    /\ craft (S fuel) dc modifier successes_required 0 0 w
       = craft (S fuel) dc modifier 1 0 0 w.
Proof.
  intros fuel dc m req w Hreq c.
  assert (E : forall r, r <= 1 ->
             craft (S fuel) dc m r 0 0 w
             = if fits_int64 m
               then (Return (c 0 || c 1 || c 2)%nat,
                     after w 100
                           (if c 0%nat then 1 else if c 1%nat then 2 else 3) 1)
               else (Raise (overflow_error m), after w 100 0 1)).
  { intros r Hr. destruct (fits_int64 m) eqn:Hm; [|now apply craft_overflow].
    unfold craft. rewrite craft_chunked_step by (reflexivity || assumption).
    cbv zeta. change (Z.to_nat ROLL_CHUNK) with (3 + 97)%nat.
    rewrite checks_from_three, for_loop_first_success by assumption.
    subst c. cbv beta. rewrite Nat.add_0_r.
    destruct (nth_check _ dc m (cursor w)),
             (nth_check _ dc m (cursor w + 1)),
             (nth_check _ dc m (cursor w + 2)); reflexivity. }
  split; [apply E; lia | rewrite !E by lia; reflexivity].
Qed.

Lemma craft_nonpositive_requirement_witness :
  0 <= 0 /\
  craft 1 18 9 0 0 0 (fresh (fun i => Z.of_nat i))
  = (Return false, after (fresh (fun i => Z.of_nat i)) 100 3 1).
Proof.
  split; [lia|].
  exact (proj1 (craft_nonpositive_requirement
                  0 18 9 0 (fresh (fun i => Z.of_nat i)) (Z.le_refl 0))).
Defined.

(** C1, as the specification words it, fails: with a required count of zero
    an attempt whose first three rolls are 1, 2 and 3 (dc 18, modifier 9)
    returns [False], after three results looked at and 100 rolls drawn. *)
Lemma craft_zero_required_not_immediate :
  craft 1 18 9 0 0 0 (fresh (fun i => Z.of_nat i))
  = (Return false, after (fresh (fun i => Z.of_nat i)) 100 3 1)
  /\ ~ (exists w',
          craft 1 18 9 0 0 0 (fresh (fun i => Z.of_nat i)) = (Return true, w')
          /\ processed w' = 0%nat /\ cursor w' = 0%nat).
Proof.
  split; [vm_compute; reflexivity|].
  intros (w' & H & _). vm_compute in H. discriminate H.
Qed.

(** C7.  An attempt always ends.  From the state
    [(n_successes, n_consec_fails)] at most [budget] results are needed,
    whatever the generator delivers: three results in a row contain a
    success or end the attempt.  So a number of frames that covers the
    budget is enough, and more fuel gives the same outcome and the same
    world.  The outcome is a returned value when the modifier fits the
    64-bit element type, and the [OverflowError] of the first sum when it
    does not. *)
Theorem craft_terminates :
  forall fuel dc modifier successes_required n_successes n_consec_fails w,
    budget successes_required n_successes n_consec_fails
      <= 100 * Z.of_nat fuel ->
    exists r w',
      (forall extra,
          craft (fuel + extra) dc modifier successes_required
                n_successes n_consec_fails w
          = (r, w')) /\
      if fits_int64 modifier then exists b, r = Return b
      else r = Raise (overflow_error modifier).
Proof.
  intros fuel dc m req s f w Hb. destruct (fits_int64 m) eqn:Hm.
  - destruct (craft_chunked_returns ROLL_CHUNK dc m req fuel s f w)
      as (b & j & k & _ & _ & Hrun & _); [reflexivity | exact Hm | exact Hb |].
    exists (Return b), (after w (Z.to_nat ROLL_CHUNK * j) k j).
    split; [|now exists b]. intros extra.
    unfold craft. rewrite craft_chunked_more_fuel;
      [exact Hrun | reflexivity | exact Hm | exact Hb].
  - exists (Raise (overflow_error m)), (after w 100 0 1).
    split; [|reflexivity]. intros extra.
    destruct fuel as [|fuel]; [pose proof (budget_pos req s f); lia|].
    change (S fuel + extra)%nat with (S (fuel + extra)).
    now apply craft_overflow.
Qed.

Lemma craft_terminates_witness :
  budget 8 0 0 <= 100 * Z.of_nat 1 /\
  exists r w',
    (forall extra,
        craft (1 + extra) 18 9 8 0 0 (fresh (fun i => Z.of_nat (3 * i)))
        = (r, w')) /\
    exists b, r = Return b.
Proof.
  split; [vm_compute; discriminate|].
  apply (craft_terminates 1 18 9 8 0 0 (fresh (fun i => Z.of_nat (3 * i)))).
  vm_compute; discriminate.
Defined.

(** C10.  Every frame of [craft] takes exactly [ROLL_CHUNK] = 100 values
    from the generator before its loop starts, and nothing else does: an
    attempt that returns after [j] frames leaves the cursor 100 * j further,
    whatever the number [k] of results its loop looked at, which lies in the
    last batch drawn ([100 * (j - 1) < k <= 100 * j]).  An attempt whose
    modifier does not fit the 64-bit element type raises in its first frame,
    after that frame's 100 values were taken. *)
Theorem craft_draws_whole_chunks :
  forall fuel dc modifier successes_required n_successes n_consec_fails w,
    budget successes_required n_successes n_consec_fails
      <= 100 * Z.of_nat fuel ->
    if fits_int64 modifier then
      (exists rs, make_checks dc modifier ROLL_CHUNK w
                  = (Return rs, after w 100 0 0) /\ List.length rs = 100%nat)
      /\
      exists b j k w',
        craft fuel dc modifier successes_required n_successes n_consec_fails w
        = (Return b, w') /\
        (1 <= j <= fuel)%nat /\
        (100 * (j - 1) < k <= 100 * j)%nat /\
        entropy w' = entropy w /\
        cursor w' = (cursor w + 100 * j)%nat /\
        frames w' = (frames w + j)%nat /\
        processed w' = (processed w + k)%nat
    else
      make_checks dc modifier ROLL_CHUNK w
      = (Raise (overflow_error modifier), after w 100 0 0)
      /\
      craft fuel dc modifier successes_required n_successes n_consec_fails w
      = (Raise (overflow_error modifier), after w 100 0 1).
Proof.
  intros fuel dc m req s f w Hb. destruct (fits_int64 m) eqn:Hm.
  - split.
    + eexists. split; [apply make_checks_run; [discriminate | exact Hm]|].
      apply checks_from_length.
    + destruct (craft_chunked_returns ROLL_CHUNK dc m req fuel s f w)
        as (b & j & k & Hj & Hk & Hrun & _); [reflexivity | exact Hm | exact Hb |].
      exists b, j, k, (after w (Z.to_nat ROLL_CHUNK * j) k j).
      repeat split; try apply Hj; try apply Hk; trivial.
  - split.
    + apply make_checks_overflow; [discriminate | exact Hm].
    + destruct fuel as [|fuel]; [pose proof (budget_pos req s f); lia|].
      now apply craft_overflow.
Qed.

Lemma craft_draws_whole_chunks_witness :
  budget 1 0 0 <= 100 * Z.of_nat 1 /\
  (exists rs, make_checks 18 9 ROLL_CHUNK (fresh (fun _ => 19%Z))
              = (Return rs, after (fresh (fun _ => 19%Z)) 100 0 0)
              /\ List.length rs = 100%nat) /\
  exists b j k w',
    craft 1 18 9 1 0 0 (fresh (fun _ => 19%Z)) = (Return b, w') /\
    (1 <= j <= 1)%nat /\
    (100 * (j - 1) < k <= 100 * j)%nat /\
    entropy w' = entropy (fresh (fun _ => 19%Z)) /\
    cursor w' = (cursor (fresh (fun _ => 19%Z)) + 100 * j)%nat /\
    frames w' = (frames (fresh (fun _ => 19%Z)) + j)%nat /\
    processed w' = (processed (fresh (fun _ => 19%Z)) + k)%nat.
Proof.
  split; [vm_compute; discriminate|].
  apply (craft_draws_whole_chunks 1 18 9 1 0 0 (fresh (fun _ => 19%Z))).
  vm_compute; discriminate.
Defined.
(* ================================================================= *)
(** * The invariant of the state machine *)

Lemma has_fail_run_cons b l : has_fail_run l = true -> has_fail_run (b :: l) = true.
Proof.
  intros H. destruct b; [exact H|].
  destruct l as [|[] [|[] l]]; trivial.
Qed.

Lemma has_fail_run_spec l :
  has_fail_run l = true <->
  exists pre post, l = pre ++ [false; false; false] ++ post.
Proof.
  split.
  - induction l as [|b l IH]; [discriminate|]. intros H.
    destruct b.
    + destruct (IH H) as (pre & post & ->). now exists (true :: pre), post.
    + destruct l as [|[] l'].
      * discriminate.
      * destruct (IH H) as (pre & post & E). exists (false :: pre), post.
        now rewrite E.
      * destruct l' as [|[] l''].
        -- discriminate.
        -- destruct (IH H) as (pre & post & E). exists (false :: pre), post.
           now rewrite E.
        -- now exists [], l''.
  - intros (pre & post & ->). induction pre as [|b pre IH]; [reflexivity|].
    now apply has_fail_run_cons.
Qed.

(** [Failed] is only reached at the end of three failures in a row. *)
Lemma for_loop_failed_run req l : forall s p,
  (fst (for_loop req l s 0 p) = Failed -> has_fail_run l = true) /\
  (fst (for_loop req l s 1 p) = Failed -> has_fail_run (false :: l) = true) /\
  (fst (for_loop req l s 2 p) = Failed ->
   has_fail_run (false :: false :: l) = true).
Proof.
  induction l as [|b l IH]; intros s p.
  - repeat split; discriminate.
  - destruct b.
    + cbn [for_loop]. rewrite !check_step_true.
      destruct (Z.leb_spec req (s + 1)); [repeat split; discriminate|].
      destruct (IH (s + 1) (S p)) as (H0 & _).
      repeat split; intros HF; apply H0 in HF; auto using has_fail_run_cons.
    + cbn [for_loop]. rewrite !check_step_false.
      change (3 <=? 0 + 1) with false. change (3 <=? 1 + 1) with false.
      change (3 <=? 2 + 1) with true. cbv iota.
      destruct (IH s (S p)) as (_ & H1 & H2).
      repeat split; auto.
Qed.

Lemma for_loop_invariant req l : forall s f p s' f' k,
  0 <= f <= 2 -> 0 <= s < Z.max 1 req ->
  for_loop req l s f p = (InProgress s' f', k) ->
  0 <= f' <= 2 /\ s <= s' < Z.max 1 req.
Proof.
  induction l as [|b l IH]; simpl; intros s f p s' f' k Hf Hs H.
  - inversion H; subst. lia.
  - destruct (check_step req s f b) as [s1 f1| |] eqn:E; try discriminate.
    apply check_step_in_progress in E.
    apply IH in H; destruct b; lia.
Qed.


Lemma firstn_snoc {A} (l : list A) : forall k x,
  nth_error l k = Some x -> firstn (S k) l = firstn k l ++ [x].
Proof.
  induction l as [|a l IH]; intros [|k] x H; try discriminate.
  - now inversion H.
  - cbn [firstn app]. f_equal. now apply IH.
Qed.

Lemma state_after_snoc req l b s f :
  state_after req l = InProgress s f ->
  state_after req (l ++ [b]) = check_step req s f b.
Proof.
  unfold state_after. intros H. rewrite for_loop_app.
  destruct (for_loop req l 0 0 0) as [t k]. simpl in H. subst t.
  cbn [for_loop]. now destruct (check_step req s f b).
Qed.

(* ================================================================= *)
(** * What the two counters count *)

Lemma successes_snoc l b : successes (l ++ [b]) = successes l + Z.b2z b.
Proof.
  unfold successes. rewrite count_occ_app. cbn [count_occ].
  destruct b; destruct (bool_dec _ true); try discriminate; try contradiction;
    cbn; lia.
Qed.

Lemma trailing_fails_snoc l b :
  trailing_fails (l ++ [b]) = if b then 0 else 1 + trailing_fails l.
Proof. unfold trailing_fails. rewrite rev_app_distr. now destruct b. Qed.

Lemma successes_bounds l : 0 <= successes l <= len l.
Proof.
  unfold successes, len. pose proof (count_occ_bound bool_dec true l). lia.
Qed.

Lemma leading_fails_bounds l : 0 <= leading_fails l <= len l.
Proof.
  unfold len. induction l as [|[] l IH]; cbn [leading_fails List.length]; lia.
Qed.

Lemma trailing_fails_bounds l : 0 <= trailing_fails l <= len l.
Proof.
  unfold trailing_fails. pose proof (leading_fails_bounds (rev l)) as H.
  unfold len in *. now rewrite length_rev in H.
Qed.

Lemma state_after_terminal_snoc req l b :
  terminal (state_after req l) = true ->
  state_after req (l ++ [b]) = state_after req l.
Proof.
  unfold state_after. rewrite for_loop_app.
  destruct (for_loop req l 0 0 0) as [[s f| |] k]; simpl; trivial; discriminate.
Qed.

Lemma state_after_counters req results : forall s f,
  state_after req results = InProgress s f ->
  s = successes results /\ f = trailing_fails results.
Proof.
  induction results as [|b l IH] using rev_ind;
    intros s f H.
  - inversion H. split; reflexivity.
  - destruct (state_after req l) as [s0 f0| |] eqn:E.
    + rewrite (state_after_snoc _ _ _ _ _ E) in H.
      destruct (IH s0 f0 eq_refl) as [Hs Hf].
      apply check_step_in_progress in H.
      rewrite successes_snoc, trailing_fails_snoc. destruct b; cbn [Z.b2z]; lia.
    + rewrite state_after_terminal_snoc in H by now rewrite E.
      rewrite E in H. discriminate.
    + rewrite state_after_terminal_snoc in H by now rewrite E.
      rewrite E in H. discriminate.
Qed.

(** X1.  While an attempt is in progress, [n_successes] is the number of
    successes among the results handled so far and [n_consec_fails] is the
    number of failures they end with. *)
Theorem counters_meaning :
  forall successes_required results s f,
    state_after successes_required results = InProgress s f ->
    s = successes results /\ f = trailing_fails results.
Proof. intros req results. apply state_after_counters. Qed.

Lemma counters_meaning_witness :
  state_after 5 [true; false; true; false; false] = InProgress 2 2 /\
  2 = successes [true; false; true; false; false] /\
  2 = trailing_fails [true; false; true; false; false].
Proof.
  split; [reflexivity|].
  apply (counters_meaning 5 [true; false; true; false; false] 2 2).
  reflexivity.
Defined.

(* ================================================================= *)
(** * What a returned value tells about the results looked at *)

(** A settled loop stopped on its last result looked at, from a state that
    was still in progress. *)
Lemma for_loop_last_step req l : forall s f p t k,
  for_loop req l s f p = (t, k) ->
  terminal t = true ->
  exists pre b post s0 f0,
    l = pre ++ b :: post /\
    k = (p + List.length pre + 1)%nat /\
    for_loop req pre s f p = (InProgress s0 f0, (p + List.length pre)%nat) /\
    check_step req s0 f0 b = t.
Proof.
  induction l as [|b l IH]; intros s f p t k H Ht.
  - inversion H; subst. discriminate.
  - cbn [for_loop] in H.
    destruct (check_step req s f b) as [s1 f1| |] eqn:E.
    + destruct (IH _ _ _ _ _ H Ht) as (pre & b' & post & s0 & f0 & -> & -> & Hpre & Hstep).
      exists (b :: pre), b', post, s0, f0. cbn [for_loop]. rewrite E.
      repeat split; trivial.
      * cbn [List.length]. lia.
      * rewrite Hpre. f_equal. cbn [List.length]. lia.
    + inversion H; subst. exists [], b, l, s, f.
      repeat split; trivial; cbn [List.length for_loop]; try lia.
      f_equal. lia.
    + inversion H; subst. exists [], b, l, s, f.
      repeat split; trivial; cbn [List.length for_loop]; try lia.
      f_equal. lia.
Qed.

(** The results looked at by a settled loop, from the default state. *)
Lemma for_loop_accounting req l b k :
  for_loop req l 0 0 0 = (verdict b, k) ->
  let seen := firstn k l in
  List.length seen = k /\
  if b then successes seen = Z.max 1 req /\ trailing_fails seen = 0
  else successes seen < Z.max 1 req /\ trailing_fails seen = 3.
Proof.
  intros H.
  destruct (for_loop_last_step req l 0 0 0%nat _ _ H)
    as (pre & r & post & s0 & f0 & -> & -> & Hpre & Hstep);
    [now destruct b|].
  assert (Hst : state_after req pre = InProgress s0 f0)
    by (unfold state_after; now rewrite Hpre).
  destruct (state_after_counters req pre s0 f0 Hst) as [Hs Hf].
  apply for_loop_invariant in Hpre; [|lia|lia].
  cbv zeta.
  replace (0 + List.length pre + 1)%nat with (List.length (pre ++ [r]))
    by (rewrite length_app; cbn; lia).
  change (pre ++ r :: post) with (pre ++ [r] ++ post).
  rewrite app_assoc, firstn_app, firstn_all, Nat.sub_diag. cbn [firstn].
  rewrite app_nil_r. split; [reflexivity|].
  rewrite successes_snoc, trailing_fails_snoc.
  destruct r.
  - rewrite check_step_true in Hstep.
    destruct (Z.leb_spec req (s0 + 1)); destruct b; try discriminate.
    cbn [Z.b2z]. split; [lia | reflexivity].
  - rewrite check_step_false in Hstep.
    destruct (Z.leb_spec 3 (f0 + 1)); destruct b; try discriminate.
    cbn [Z.b2z]. split; lia.
Qed.

Lemma firstn_checks_from e c dc m k n :
  (k <= n)%nat -> firstn k (checks_from e c dc m n) = checks_from e c dc m k.
Proof.
  intros H. replace n with (k + (n - k))%nat by lia.
  rewrite checks_from_app, firstn_app, checks_from_length, Nat.sub_diag.
  cbn [firstn]. rewrite app_nil_r. rewrite <- (checks_from_length e c dc m k) at 1.
  apply firstn_all.
Qed.

Lemma successes_app l1 l2 : successes (l1 ++ l2) = successes l1 + successes l2.
Proof. unfold successes. rewrite count_occ_app. lia. Qed.

Lemma state_after_terminal_app req l rest :
  terminal (state_after req l) = true ->
  state_after req (l ++ rest) = state_after req l.
Proof.
  unfold state_after. rewrite for_loop_app.
  destruct (for_loop req l 0 0 0) as [[s f| |] k]; simpl; trivial; discriminate.
Qed.









(* ================================================================= *)
(** * Batches against one result at a time *)

(** Every sequence of check results is delivered by some generator. *)
Lemma every_result_sequence_arises (results : nat -> bool) :
  forall i, nth_check (fun i => if results i then 19 else 0) 20 0 i = results i.
Proof.
  intros i. rewrite nth_check_exact by reflexivity. now destruct (results i).
Qed.

Lemma checks_from_results e c dc m (results : nat -> bool) n :
  (forall i, nth_check e dc m (c + i) = results i) ->
  checks_from e c dc m n = map results (seq 0 n).
Proof. intros H. unfold checks_from. apply map_ext. exact H. Qed.

(** C6.  For every sequence of check results and every positive batch
    size, [craft] with that batch size returns the verdict of the unbatched
    fold of the transition rule over the same results in the same order; so
    does [craft] itself, with its batches of 100.  (When the modifier does
    not fit the 64-bit element type no result is delivered: the first sum
    raises, with any batch size.) *)
Theorem craft_batching_unobservable :
  forall (results : nat -> bool) chunk fuel dc modifier successes_required w,
    0 < chunk ->
    (forall i, nth_check (entropy w) dc modifier (cursor w + i) = results i) ->
    3 * Z.max 1 successes_required <= chunk * Z.of_nat fuel ->
    if fits_int64 modifier then
      exists b,
        fst (craft_chunked chunk fuel dc modifier successes_required 0 0 w)
        = Return b
        /\
        (forall fuel',
            3 * Z.max 1 successes_required <= 100 * Z.of_nat fuel' ->
            fst (craft fuel' dc modifier successes_required 0 0 w) = Return b)
        /\
        (forall n,
            3 * Z.max 1 successes_required <= Z.of_nat n ->
            unbatched successes_required (map results (seq 0 n)) = verdict b)
    else
      fst (craft_chunked chunk fuel dc modifier successes_required 0 0 w)
      = Raise (overflow_error modifier)
      /\
      (forall fuel',
          3 * Z.max 1 successes_required <= 100 * Z.of_nat fuel' ->
          fst (craft fuel' dc modifier successes_required 0 0 w)
          = Raise (overflow_error modifier)).
Proof.
  intros results chunk fuel dc m req w Hc Hres Hfuel.
  destruct (fits_int64 m) eqn:Hm.
  - set (n0 := Z.to_nat (3 * Z.max 1 req)).
    assert (Hbud : budget req 0 0 = 3 * Z.max 1 req) by (unfold budget; lia).
    destruct (craft_chunked_verdict chunk fuel dc m req 0 0 w n0 Hc Hm)
      as (b & k & w' & Hrun & _ & Hloop); [lia | lia |].
    exists b. split; [now rewrite Hrun|]. split.
    + intros fuel' Hfuel'.
      destruct (craft_chunked_verdict ROLL_CHUNK fuel' dc m req 0 0 w n0)
        as (b' & k' & w'' & Hrun' & _ & Hloop');
        [reflexivity | exact Hm | unfold ROLL_CHUNK; lia | lia |].
      unfold craft. rewrite Hrun'. simpl. f_equal.
      apply verdict_inj. congruence.
    + intros n Hn. unfold unbatched.
      rewrite <- (checks_from_results (entropy w) (cursor w) dc m results n Hres).
      rewrite <- (for_loop_fold req _ 0 0 0%nat).
      rewrite (for_loop_any_prefix req (entropy w) (cursor w) dc m 0 0 n n0 b k);
        [reflexivity | | exact Hloop].
      apply for_loop_settles. rewrite checks_from_length. lia.
  - split.
    + destruct fuel as [|fuel]; [lia|].
      now rewrite craft_chunked_overflow.
    + intros [|fuel'] Hfuel'; [lia|]. now rewrite craft_overflow.
Qed.

Lemma craft_batching_unobservable_witness :
  0 < 7 /\
  (forall i, nth_check (entropy (fresh (fun i => if Nat.even i then 19 else 0)))
                       20 0 (cursor (fresh (fun i => if Nat.even i then 19 else 0)) + i)
             = Nat.even i) /\
  3 * Z.max 1 8 <= 7 * Z.of_nat 4 /\
  exists b,
    fst (craft_chunked 7 4 20 0 8 0 0 (fresh (fun i => if Nat.even i then 19 else 0)))
    = Return b
    /\
    (forall fuel',
        3 * Z.max 1 8 <= 100 * Z.of_nat fuel' ->
        fst (craft fuel' 20 0 8 0 0 (fresh (fun i => if Nat.even i then 19 else 0)))
        = Return b)
    /\
    (forall n,
        3 * Z.max 1 8 <= Z.of_nat n ->
        unbatched 8 (map Nat.even (seq 0 n)) = verdict b).
Proof.
  assert (H : forall i, nth_check (entropy (fresh (fun i => if Nat.even i then 19 else 0)))
                       20 0 (cursor (fresh (fun i => if Nat.even i then 19 else 0)) + i)
             = Nat.even i).
  { intros i. cbn [entropy cursor fresh Nat.add].
    rewrite nth_check_exact by reflexivity.
    destruct (Nat.even i); reflexivity. }
  split; [lia|]. split; [exact H|]. split; [lia|].
  apply (craft_batching_unobservable Nat.even 7 4 20 0 8
           (fresh (fun i => if Nat.even i then 19 else 0))); [lia | exact H | lia].
Defined.

(* ================================================================= *)
(** * [make_checks] and [roll] *)




Example make_checks_sample :
  fst (make_checks 18 9 3 (fresh (fun i => 5 * Z.of_nat i)))
  = Return [false; false; true].
Proof. reflexivity. Qed.


(* ================================================================= *)
(** * Invalid configurations *)

Lemma comprehension_none fuel dc m req w :
  comprehension fuel 0 dc m req w = (Return [], w).
Proof. reflexivity. Qed.

(** C5, as the code has it.  Nothing in the program validates its
    configuration.  With a number of repeats below 1 the comprehension makes
    no attempt, nothing is drawn and nothing is printed, and the division by
    the length of the empty list of outcomes raises [ZeroDivisionError].
    [roll] with a die below 1 and a count other than 0 is refused by the
    generator's own check of the range, before any value is drawn. *)
Theorem invalid_configuration_behaviour :
  forall fuel dc modifier successes_required n_repeats die number w,
    n_repeats < 1 ->
    die < 1 ->
    number <> 0 ->
    main_with fuel dc modifier successes_required n_repeats w
    = (Raise (ZeroDivisionError "division by zero"), w)
    /\ roll die number w = (Raise (ValueError "low >= high"), w).
Proof.
  intros fuel dc m req n_repeats die number w Hn Hd Hnum. split.
  - unfold main_with, bind.
    replace (Z.to_nat n_repeats) with 0%nat by lia.
    rewrite comprehension_none. reflexivity.
  - unfold roll, randint.
    destruct (Z.eqb_spec number 0); [contradiction|].
    change (1 <? int64_min) with false. cbv iota.
    destruct (Z.ltb_spec int64_max (die + 1 - 1));
      [unfold int64_max in *; lia|].
    destruct (Z.leb_spec (die + 1) 1); [reflexivity | lia].
Qed.

Lemma invalid_configuration_behaviour_witness :
  -3 < 1 /\ 0 < 1 /\ 5 <> 0 /\
  main_with 1 18 9 8 (-3) (fresh (fun _ => 0))
  = (Raise (ZeroDivisionError "division by zero"), fresh (fun _ => 0))
  /\ roll 0 5 (fresh (fun _ => 0))
     = (Raise (ValueError "low >= high"), fresh (fun _ => 0)).
Proof.
  split; [lia|]. split; [lia|]. split; [lia|].
  apply (invalid_configuration_behaviour 1 18 9 8 (-3) 0 5 (fresh (fun _ => 0)));
    lia.
Defined.

(** C5, as the specification words it, fails: with zero repeats the program
    ends in an arithmetic error raised by its last statement, not in a
    configuration error. *)
Lemma zero_repeats_no_configuration_error :
  exists e,
    main_with 1 18 9 8 0 (fresh (fun _ => 0)) = (Raise e, fresh (fun _ => 0))
    /\ is_configuration_error e = false.
Proof.
  exists (ZeroDivisionError "division by zero"). split; reflexivity.
Qed.

(* ================================================================= *)
(** * The printed line *)

Lemma percent_ok_all :
  forallb percent_ok (map Z.of_nat (seq 0 (Z.to_nat 10001))) = true.
Proof. vm_compute. reflexivity. Qed.

Lemma percent_ok_each total :
  0 <= total <= 10000 -> percent_ok total = true.
Proof.
  intros H. pose proof percent_ok_all as A.
  rewrite forallb_forall in A. apply A.
  apply in_map_iff. exists (Z.to_nat total). split; [lia|].
  apply in_seq. lia.
Qed.

Lemma format_0f_printed x p :
  printed_integer x = Some p -> format_0f x = string_of_Z p.
Proof.
  unfold printed_integer, format_0f.
  destruct (Prim2SF x) as [[]|[]| |[] m e]; intros H; inversion H; reflexivity.
Qed.

Lemma sum_from l : forall a,
  fold_left (fun acc b => acc + Z.b2z b) l a
  = a + Z.of_nat (List.length l) - Z.of_nat (count_occ bool_dec l false).
Proof.
  induction l as [|b l IH]; intros a.
  - simpl. lia.
  - cbn [fold_left]. rewrite IH. destruct b; cbn [count_occ List.length Z.b2z].
    + destruct (bool_dec true false); [discriminate | lia].
    + destruct (bool_dec false false); [lia | contradiction].
Qed.

Lemma sum_failures l : sum l = len l - failures l.
Proof. unfold sum, len, failures. rewrite sum_from. lia. Qed.

Lemma failures_bounds l : 0 <= failures l <= len l.
Proof.
  unfold failures, len. pose proof (count_occ_bound bool_dec false l). lia.
Qed.

Lemma stdout_after w d k j : stdout (after w d k j) = stdout w.
Proof. reflexivity. Qed.

(** With a required number of 33 or less one frame settles the attempt. *)
Lemma craft_one_frame fuel dc m req w :
  req <= 33 ->
  fits_int64 m = true ->
  exists k,
    craft (S fuel) dc m req 0 0 w =
    (Return (block_outcome (entropy w) (cursor w) dc m req), after w 100 k 1).
Proof.
  intros Hreq Hm. unfold craft, block_outcome.
  rewrite craft_chunked_step by (reflexivity || assumption). cbv zeta.
  change (Z.to_nat ROLL_CHUNK) with 100%nat.
  pose proof (for_loop_settles req (checks_from (entropy w) (cursor w) dc m 100)
                               0 0 0%nat) as Hs.
  rewrite checks_from_length in Hs.
  destruct (for_loop req _ 0 0 0) as [[s f| |] k]; cbn [fst snd] in *;
    try (now exists k).
  assert (budget req 0 0 <= Z.of_nat 100) by (unfold budget; lia).
  specialize (Hs H). discriminate.
Qed.

(** The repeats, each settled by the batch of 100 values it draws. *)
Lemma comprehension_blocks fuel n dc m req : forall w,
  req <= 33 ->
  fits_int64 m = true ->
  exists seen,
    comprehension (S fuel) n dc m req w
    = (Return (map (fun i => block_outcome (entropy w) (cursor w + 100 * i)
                                           dc m req)
                   (seq 0 n)),
       after w (100 * n) seen n).
Proof.
  induction n as [|n IH]; intros w Hreq Hm.
  - exists 0%nat. cbn [comprehension seq map]. unfold ret.
    rewrite Nat.mul_0_r, after_nothing. reflexivity.
  - destruct (craft_one_frame fuel dc m req w Hreq Hm) as (k & Hk).
    destruct (IH (after w 100 k 1) Hreq Hm) as (seen & Hc).
    exists (k + seen)%nat. cbn [comprehension]. unfold bind.
    rewrite Hk, Hc. unfold ret. rewrite after_after.
    replace (100 + 100 * n)%nat with (100 * S n)%nat by lia.
    replace (1 + n)%nat with (S n) by lia.
    apply (f_equal (fun l => (Return l, after w (100 * S n) (k + seen) (S n)))).
    cbn [seq map entropy cursor after].
    replace (cursor w + 100 * 0)%nat with (cursor w) by lia.
    apply (f_equal (cons _)).
    rewrite (map_seq_from _ n 1). apply map_ext. intros i.
    replace (cursor w + 100 + 100 * i)%nat with (cursor w + 100 * (1 + i))%nat
      by lia.
    reflexivity.
Qed.

(** The line printed from 10000 outcomes. *)
Lemma main_line fuel w outcomes w1 :
  comprehension fuel (Z.to_nat 10000) 18 9 8 w = (Return outcomes, w1) ->
  len outcomes = 10000 ->
  exists p,
    main fuel w = print ("percent failure:" ++ string_of_Z p) w1 /\
    0 <= p <= 100 /\
    nearest_percent p (failures outcomes) 10000.
Proof.
  intros Hc Hl.
  pose proof (failures_bounds outcomes) as Hf. rewrite Hl in Hf.
  pose proof (sum_failures outcomes) as Hs. rewrite Hl in Hs.
  pose proof (percent_ok_each (sum outcomes) ltac:(lia)) as Hok.
  unfold percent_ok in Hok.
  destruct (printed_integer (percent_failure (sum outcomes) 10000))
    as [p|] eqn:Hp; [|discriminate].
  apply andb_prop in Hok as [Hok Hnear]. apply andb_prop in Hok as [H0 H100].
  apply Z.leb_le in H0, H100, Hnear.
  exists p. split; [|split; [lia|]].
  - unfold main, main_with, bind. rewrite Hc, Hl.
    change (10000 =? 0) with false. cbv iota.
    now rewrite (format_0f_printed _ _ Hp).
  - unfold nearest_percent.
    replace (failures outcomes) with (10000 - sum outcomes) by lia.
    exact Hnear.
Qed.

(** C8.  The program prints one line and nothing else:
    [percent failure:] followed by an integer of [0, 100] that is nearest to
    100 * failures / 10000.  The failures are counted over the outcomes of
    the 10000 attempts made one after the other: the [i]-th outcome is the
    value [craft] returns on the [i]-th batch of 100 values, and the 10000
    attempts take 10000 frames and 1000000 values. *)
Theorem main_prints_percent_failure :
  forall fuel w,
    (1 <= fuel)%nat ->
    exists outcomes seen p,
      outcomes
      = map (fun i => block_outcome (entropy w) (cursor w + 100 * i) 18 9 8)
            (seq 0 (Z.to_nat 10000)) /\
      (forall w0, exists k,
          craft fuel 18 9 8 0 0 w0
          = (Return (block_outcome (entropy w0) (cursor w0) 18 9 8),
             after w0 100 k 1)) /\
      comprehension fuel (Z.to_nat 10000) 18 9 8 w
      = (Return outcomes,
         after w (100 * Z.to_nat 10000) seen (Z.to_nat 10000)) /\
      len outcomes = 10000 /\
      main fuel w
      = print ("percent failure:" ++ string_of_Z p)
              (after w (100 * Z.to_nat 10000) seen (Z.to_nat 10000)) /\
      stdout (snd (main fuel w))
      = (stdout w ++ [("percent failure:" ++ string_of_Z p)%string])%list /\
      0 <= p <= 100 /\
      nearest_percent p (failures outcomes) 10000.
Proof.
  intros [|fuel] w Hfuel; [lia|].
  destruct (comprehension_blocks fuel (Z.to_nat 10000) 18 9 8 w)
    as (seen & Hc); [lia | reflexivity |].
  remember (map (fun i => block_outcome (entropy w) (cursor w + 100 * i) 18 9 8)
                (seq 0 (Z.to_nat 10000))) as outcomes eqn:Eo.
  remember (after w (100 * Z.to_nat 10000) seen (Z.to_nat 10000)) as w1 eqn:Ew.
  assert (Hl : len outcomes = 10000).
  { unfold len. rewrite Eo, length_map, length_seq. apply Z2Nat.id. lia. }
  destruct (main_line (S fuel) w outcomes w1 Hc Hl) as (p & Hmain & Hp & Hnear).
  subst w1. exists outcomes, seen, p.
  split; [reflexivity|].
  split; [intros w0; apply craft_one_frame; [lia | reflexivity]|].
  split; [exact Hc|]. split; [exact Hl|]. split; [exact Hmain|].
  split; [|split; assumption].
  rewrite Hmain. unfold print. cbn [snd stdout].
  now rewrite stdout_after.
Qed.

Lemma main_prints_percent_failure_witness :
  (1 <= 1)%nat /\
  exists outcomes seen p,
    outcomes
    = map (fun i => block_outcome (entropy (fresh (fun i => Z.of_nat (7 * i))))
                                  (cursor (fresh (fun i => Z.of_nat (7 * i)))
                                   + 100 * i) 18 9 8)
          (seq 0 (Z.to_nat 10000)) /\
    (forall w0, exists k,
        craft 1 18 9 8 0 0 w0
        = (Return (block_outcome (entropy w0) (cursor w0) 18 9 8),
           after w0 100 k 1)) /\
    comprehension 1 (Z.to_nat 10000) 18 9 8 (fresh (fun i => Z.of_nat (7 * i)))
    = (Return outcomes,
       after (fresh (fun i => Z.of_nat (7 * i)))
             (100 * Z.to_nat 10000) seen (Z.to_nat 10000)) /\
    len outcomes = 10000 /\
    main 1 (fresh (fun i => Z.of_nat (7 * i)))
    = print ("percent failure:" ++ string_of_Z p)
            (after (fresh (fun i => Z.of_nat (7 * i)))
                   (100 * Z.to_nat 10000) seen (Z.to_nat 10000)) /\
    stdout (snd (main 1 (fresh (fun i => Z.of_nat (7 * i)))))
    = (stdout (fresh (fun i => Z.of_nat (7 * i)))
         ++ [("percent failure:" ++ string_of_Z p)%string])%list /\
    0 <= p <= 100 /\
    nearest_percent p (failures outcomes) 10000.
Proof.
  split; [lia|].
  exact (main_prints_percent_failure 1 (fresh (fun i => Z.of_nat (7 * i)))
                                     (le_n 1)).
Defined.

(* ================================================================= *)
(** * What a returned value tells about the results looked at *)

(** What a call of [craft] from the default state comes to: the frames
    entered, the results looked at and the loop they settle. *)
Lemma craft_summary fuel dc m req w :
  fits_int64 m = true ->
  3 * Z.max 1 req <= 100 * Z.of_nat fuel ->
  exists b j k,
    craft fuel dc m req 0 0 w = (Return b, after w (100 * j) k j) /\
    (1 <= j <= fuel)%nat /\
    (100 * (j - 1) < k <= 100 * j)%nat /\
    Z.of_nat k <= 3 * Z.max 1 req /\
    for_loop req (checks_from (entropy w) (cursor w) dc m (100 * j)) 0 0 0
    = (verdict b, k).
Proof.
  intros Hm Hfuel.
  assert (Hbud : budget req 0 0 = 3 * Z.max 1 req) by (unfold budget; lia).
  destruct (craft_chunked_returns ROLL_CHUNK dc m req fuel 0 0 w)
    as (b & j & k & Hj & Hk & Hrun & Hloop);
    [reflexivity | exact Hm | unfold ROLL_CHUNK; lia |].
  change (Z.to_nat ROLL_CHUNK) with 100%nat in *.
  exists b, j, k. split; [exact Hrun|]. split; [exact Hj|]. split; [exact Hk|].
  split; [|exact Hloop].
  set (n0 := Z.to_nat (3 * Z.max 1 req)).
  assert (H0 : for_loop req (checks_from (entropy w) (cursor w) dc m n0) 0 0 0
               = (verdict b, k)).
  { apply for_loop_any_prefix with (n2 := (100 * j)%nat); [|exact Hloop].
    apply for_loop_settles. rewrite checks_from_length. lia. }
  apply for_loop_seen in H0. rewrite checks_from_length in H0. lia.
Qed.

Lemma craft_overflow_any fuel dc m req s f w :
  fits_int64 m = false ->
  budget req s f <= 100 * Z.of_nat fuel ->
  craft fuel dc m req s f w = (Raise (overflow_error m), after w 100 0 1).
Proof.
  intros Hm Hb. destruct fuel as [|fuel];
    [pose proof (budget_pos req s f); lia|].
  now apply craft_overflow.
Qed.

(** X2.  What the value returned by [craft] means.  [True]: the results
    looked at hold exactly the required number of successes (one, when the
    required number is not positive) and end with a success.  [False]: they
    hold fewer successes than that and end with exactly three failures.
    (With a modifier outside the 64-bit element type no value is returned:
    the first sum raises.) *)
Theorem craft_accounting :
  forall fuel dc modifier successes_required w,
    3 * Z.max 1 successes_required <= 100 * Z.of_nat fuel ->
    if fits_int64 modifier then
      exists b j k,
        craft fuel dc modifier successes_required 0 0 w
        = (Return b, after w (100 * j) k j) /\
        if b
        then successes (checks_from (entropy w) (cursor w) dc modifier k)
             = Z.max 1 successes_required /\
             trailing_fails (checks_from (entropy w) (cursor w) dc modifier k) = 0
        else successes (checks_from (entropy w) (cursor w) dc modifier k)
             < Z.max 1 successes_required /\
             trailing_fails (checks_from (entropy w) (cursor w) dc modifier k) = 3
    else
      craft fuel dc modifier successes_required 0 0 w
      = (Raise (overflow_error modifier), after w 100 0 1).
Proof.
  intros fuel dc m req w Hfuel. destruct (fits_int64 m) eqn:Hm.
  - destruct (craft_summary fuel dc m req w Hm Hfuel)
      as (b & j & k & Hrun & _ & Hk & _ & Hloop).
    exists b, j, k. split; [exact Hrun|].
    apply for_loop_accounting in Hloop. cbv zeta in Hloop.
    rewrite firstn_checks_from in Hloop by lia. apply Hloop.
  - apply craft_overflow_any; [exact Hm | unfold budget; lia].
Qed.

Lemma craft_accounting_witness :
  3 * Z.max 1 8 <= 100 * Z.of_nat 1 /\
  exists b j k,
    craft 1 18 9 8 0 0 (fresh (fun i => Z.of_nat (11 * i)))
    = (Return b, after (fresh (fun i => Z.of_nat (11 * i))) (100 * j) k j) /\
    if b
    then successes (checks_from (fun i => Z.of_nat (11 * i)) 0 18 9 k)
         = Z.max 1 8 /\
         trailing_fails (checks_from (fun i => Z.of_nat (11 * i)) 0 18 9 k) = 0
    else successes (checks_from (fun i => Z.of_nat (11 * i)) 0 18 9 k)
         < Z.max 1 8 /\
         trailing_fails (checks_from (fun i => Z.of_nat (11 * i)) 0 18 9 k) = 3.
Proof.
  split; [lia|].
  apply (craft_accounting 1 18 9 8 (fresh (fun i => Z.of_nat (11 * i)))). lia.
Defined.

(** X3.  The effort of an attempt.  From the default state [craft] looks at
    no fewer than [min 3 (max 1 required)] and no more than
    [3 * max 1 required] results, so the frames before the last one hold
    fewer than that many results; with a required number of 33 or less the
    recursive call is never made and exactly 100 values are drawn.  (With a
    modifier outside the 64-bit element type the first sum raises: one
    frame, 100 values, no result looked at.) *)
Theorem craft_effort :
  forall fuel dc modifier successes_required w,
    3 * Z.max 1 successes_required <= 100 * Z.of_nat fuel ->
    if fits_int64 modifier then
      exists b j k,
        craft fuel dc modifier successes_required 0 0 w
        = (Return b, after w (100 * j) k j) /\
        Z.min 3 (Z.max 1 successes_required) <= Z.of_nat k
          <= 3 * Z.max 1 successes_required /\
        (1 <= j)%nat /\
        100 * (Z.of_nat j - 1) < 3 * Z.max 1 successes_required /\
        (successes_required <= 33 -> j = 1%nat)
    else
      craft fuel dc modifier successes_required 0 0 w
      = (Raise (overflow_error modifier), after w 100 0 1).
Proof.
  intros fuel dc m req w Hfuel. destruct (fits_int64 m) eqn:Hm.
  - destruct (craft_summary fuel dc m req w Hm Hfuel)
      as (b & j & k & Hrun & Hj & Hk & Hup & Hloop).
    exists b, j, k. split; [exact Hrun|].
    apply for_loop_accounting in Hloop. cbv zeta in Hloop.
    destruct Hloop as [Hlen Hacc].
    set (seen := firstn k _) in *.
    pose proof (successes_bounds seen) as Hs.
    pose proof (trailing_fails_bounds seen) as Ht.
    unfold len in Hs, Ht. rewrite Hlen in Hs, Ht.
    split; [destruct b; lia|]. split; [lia|]. split; [lia|].
    intros Hreq. lia.
  - apply craft_overflow_any; [exact Hm | unfold budget; lia].
Qed.

Lemma craft_effort_witness :
  3 * Z.max 1 8 <= 100 * Z.of_nat 1 /\
  exists b j k,
    craft 1 18 9 8 0 0 (fresh (fun i => Z.of_nat (11 * i)))
    = (Return b, after (fresh (fun i => Z.of_nat (11 * i))) (100 * j) k j) /\
    Z.min 3 (Z.max 1 8) <= Z.of_nat k <= 3 * Z.max 1 8 /\
    (1 <= j)%nat /\
    100 * (Z.of_nat j - 1) < 3 * Z.max 1 8 /\
    (8 <= 33 -> j = 1%nat).
Proof.
  split; [lia|].
  apply (craft_effort 1 18 9 8 (fresh (fun i => Z.of_nat (11 * i)))). lia.
Defined.

(* ================================================================= *)
(** * Easier checks never hurt *)

Lemma transition_mono req req' t t' (b b' : bool) :
  req' <= req ->
  no_better t t' ->
  (b = true -> b' = true) ->
  no_better (transition req t b) (transition req' t' b').
Proof.
  intros Hreq Ht Hb.
  destruct t as [s f| |], t' as [s' f'| |]; cbn [transition no_better] in *;
    trivial; try contradiction.
  - destruct b.
    + rewrite (Hb eq_refl), !check_step_true.
      destruct (Z.leb_spec req (s + 1)), (Z.leb_spec req' (s' + 1));
        cbn [no_better]; trivial; lia.
    + rewrite check_step_false.
      destruct (Z.leb_spec 3 (f + 1)); cbn [no_better]; trivial.
      destruct b'.
      * rewrite check_step_true.
        destruct (Z.leb_spec req' (s' + 1)); cbn [no_better]; trivial; lia.
      * rewrite check_step_false.
        destruct (Z.leb_spec 3 (f' + 1)); cbn [no_better]; lia.
  - destruct (check_step req s f b); exact I.
Qed.

Lemma fold_transition_mono req req' l l' : forall t t',
  req' <= req ->
  Forall2 (fun b b' : bool => b = true -> b' = true) l l' ->
  no_better t t' ->
  no_better (fold_left (transition req) l t) (fold_left (transition req') l' t').
Proof.
  intros t t' Hreq HF. revert t t'.
  induction HF as [|b b' l l' Hb HF IH]; intros t t' Ht; cbn [fold_left].
  - exact Ht.
  - apply IH. now apply transition_mono.
Qed.

Lemma checks_from_mono e c dc m dc' m' n :
  safe_modifier m = true ->
  safe_modifier m' = true ->
  dc' - m' <= dc - m ->
  Forall2 (fun b b' : bool => b = true -> b' = true)
          (checks_from e c dc m n) (checks_from e c dc' m' n).
Proof.
  intros Hm Hm' H. unfold checks_from.
  induction (seq 0 n) as [|i l IH]; cbn [map]; constructor; trivial.
  rewrite !nth_check_exact by assumption. rewrite !Z.geb_leb. intros Hi.
  apply Z.leb_le in Hi. apply Z.leb_le. lia.
Qed.

(** X4.  On the same rolls, an easier attempt does at least as well: with a
    lower [dc - modifier] and a required number that is not higher,
    [craft] returns [True] wherever it did before, as long as both modifiers
    are safe (between -2^63 and 2^63 - 21, where no sum wraps around). *)
Theorem craft_monotone :
  forall fuel dc modifier successes_required dc' modifier' successes_required' w,
    safe_modifier modifier = true ->
    safe_modifier modifier' = true ->
    dc' - modifier' <= dc - modifier ->
    successes_required' <= successes_required ->
    3 * Z.max 1 successes_required <= 100 * Z.of_nat fuel ->
    fst (craft fuel dc modifier successes_required 0 0 w) = Return true ->
    fst (craft fuel dc' modifier' successes_required' 0 0 w) = Return true.
Proof.
  intros fuel dc m req dc' m' req' w Hm Hm' Hdc Hreq Hfuel Hrun.
  set (n0 := Z.to_nat (3 * Z.max 1 req)).
  destruct (craft_chunked_verdict ROLL_CHUNK fuel dc m req 0 0 w n0)
    as (b & k & w1 & Hrun1 & _ & Hloop1);
    [reflexivity | now apply safe_modifier_fits
     | unfold budget, ROLL_CHUNK; lia | unfold budget; lia |].
  destruct (craft_chunked_verdict ROLL_CHUNK fuel dc' m' req' 0 0 w n0)
    as (b' & k' & w2 & Hrun2 & _ & Hloop2);
    [reflexivity | now apply safe_modifier_fits
     | unfold budget, ROLL_CHUNK; lia | unfold budget; lia |].
  unfold craft in *. rewrite Hrun1 in Hrun. rewrite Hrun2.
  cbn [fst] in *. inversion Hrun; subst b.
  pose proof (fold_transition_mono req req' _ _ (InProgress 0 0) (InProgress 0 0)
                Hreq (checks_from_mono (entropy w) (cursor w) dc m dc' m' n0
                                       Hm Hm' Hdc))
    as Hmono.
  rewrite <- !(for_loop_fold _ _ 0 0 0%nat), Hloop1, Hloop2 in Hmono.
  cbn [fst verdict] in Hmono.
  destruct b'; [reflexivity|].
  exfalso. apply Hmono. cbn [no_better]. lia.
Qed.

Lemma craft_monotone_witness :
  safe_modifier 9 = true /\ safe_modifier 9 = true /\
  15 - 9 <= 18 - 9 /\ 1 <= 2 /\ 3 * Z.max 1 2 <= 100 * Z.of_nat 1 /\
  fst (craft 1 18 9 2 0 0 (fresh (fun i => Z.of_nat (9 * i)))) = Return true /\
  fst (craft 1 15 9 1 0 0 (fresh (fun i => Z.of_nat (9 * i)))) = Return true.
Proof.
  assert (H : fst (craft 1 18 9 2 0 0 (fresh (fun i => Z.of_nat (9 * i))))
              = Return true) by (vm_compute; reflexivity).
  split; [reflexivity|]. split; [reflexivity|].
  repeat (split; [lia|]). split; [exact H|].
  apply (craft_monotone 1 18 9 2 15 9 1 (fresh (fun i => Z.of_nat (9 * i))));
    [reflexivity | reflexivity | lia | lia | lia | exact H].
Defined.

(* ================================================================= *)
(** * Only the difference between the threshold and the modifier matters *)

Lemma roll_negative number w :
  number < 0 ->
  roll 20 number w
  = (Raise (ValueError "negative dimensions are not allowed"), w).
Proof.
  intros Hn. unfold roll, randint.
  destruct (Z.eqb_spec number 0); [lia|].
  change (1 <? int64_min) with false.
  change (int64_max <? 20 + 1 - 1) with false.
  change (20 + 1 <=? 1) with false. cbv iota.
  destruct (Z.ltb_spec number 0); [reflexivity | lia].
Qed.

Lemma checks_from_shift e c dc m n :
  safe_modifier m = true ->
  checks_from e c dc m n = checks_from e c (dc - m) 0 n.
Proof.
  intros Hm. unfold checks_from. apply map_ext. intros i.
  rewrite nth_check_exact by assumption.
  rewrite nth_check_exact by reflexivity.
  rewrite !Z.geb_leb.
  destruct (Z.leb_spec dc (1 + e (c + i)%nat mod 20 + m)),
           (Z.leb_spec (dc - m) (1 + e (c + i)%nat mod 20 + 0)); trivial; lia.
Qed.

Lemma make_checks_shift dc m number w :
  safe_modifier m = true ->
  make_checks dc m number w = make_checks (dc - m) 0 number w.
Proof.
  intros Hm. destruct (Z_lt_le_dec number 0) as [Hn|Hn].
  - unfold make_checks, bind. now rewrite roll_negative.
  - rewrite (make_checks_run dc m number w Hn (safe_modifier_fits m Hm)).
    rewrite (make_checks_run (dc - m) 0 number w Hn eq_refl).
    rewrite (checks_from_shift _ _ dc m _ Hm). reflexivity.
Qed.

(** X5.  With a safe modifier (between -2^63 and 2^63 - 21, where no sum
    wraps around), [make_checks] and [craft] depend on [dc] and [modifier]
    through [dc - modifier] only: the value returned and everything done to
    the generator are those of the call with threshold [dc - modifier] and
    no modifier, from any state and with any batch size. *)
Theorem craft_depends_on_difference :
  forall chunk fuel dc modifier successes_required n_successes n_consec_fails w,
    safe_modifier modifier = true ->
    make_checks dc modifier chunk w = make_checks (dc - modifier) 0 chunk w /\
    craft_chunked chunk fuel dc modifier successes_required
                  n_successes n_consec_fails w
    = craft_chunked chunk fuel (dc - modifier) 0 successes_required
                    n_successes n_consec_fails w.
Proof.
  intros chunk fuel dc m req s f w Hm. split; [now apply make_checks_shift|].
  revert s f w. induction fuel as [|fuel IH]; intros s f w; [reflexivity|].
  cbn [craft_chunked]. unfold bind, enter_frame. cbv beta iota.
  rewrite make_checks_shift by assumption.
  destruct (make_checks (dc - m) 0 chunk _) as [[results| |] w1]; trivial.
  destruct (for_loop req results s f 0) as [[s' f'| |] k]; trivial.
  unfold tick. apply IH.
Qed.

Lemma craft_depends_on_difference_witness :
  safe_modifier 9 = true /\
  make_checks 18 9 100 (fresh low_then_high)
  = make_checks (18 - 9) 0 100 (fresh low_then_high) /\
  craft_chunked 100 1 18 9 8 0 0 (fresh low_then_high)
  = craft_chunked 100 1 (18 - 9) 0 8 0 0 (fresh low_then_high).
Proof.
  split; [reflexivity|].
  apply (craft_depends_on_difference 100 1 18 9 8 0 0 (fresh low_then_high)).
  reflexivity.
Defined.

(* ================================================================= *)
(** * [roll] with any die *)





(** A die with 2^63 sides is refused before anything else is looked at. *)
Example roll_die_out_of_bounds :
  fst (roll 9223372036854775808 1 (fresh all_low))
  = Raise (ValueError "high is out of bounds for int64") /\
  fst (roll 9223372036854775808 (-1) (fresh all_low))
  = Raise (ValueError "high is out of bounds for int64").
Proof. split; reflexivity. Qed.

(* ================================================================= *)
(** * The repeats of the experiment *)

Lemma comprehension_overflow fuel n dc m req w :
  fits_int64 m = false ->
  comprehension (S fuel) (S n) dc m req w
  = (Raise (overflow_error m), after w 100 0 1).
Proof.
  intros Hm. cbn [comprehension]. unfold bind.
  now rewrite craft_overflow.
Qed.

(** X8.  With a required number of 33 or less, the repeats of the experiment
    never share a draw: the [i]-th outcome is decided by the [i]-th batch of
    100 values alone, and [n] repeats take exactly [100 * n] values in [n]
    frames.  (With a modifier outside the 64-bit element type the first
    repeat raises.) *)
Theorem comprehension_by_blocks :
  forall fuel n dc modifier successes_required w,
    successes_required <= 33 ->
    if fits_int64 modifier then
      exists seen,
        comprehension (S fuel) n dc modifier successes_required w
        = (Return (map (fun i => block_outcome (entropy w) (cursor w + 100 * i)
                                               dc modifier successes_required)
                       (seq 0 n)),
           after w (100 * n) seen n)
    else
      n <> 0%nat ->
      comprehension (S fuel) n dc modifier successes_required w
      = (Raise (overflow_error modifier), after w 100 0 1).
Proof.
  intros fuel n dc m req w Hreq. destruct (fits_int64 m) eqn:Hm.
  - now apply comprehension_blocks.
  - intros Hn. destruct n as [|n]; [contradiction|].
    now apply comprehension_overflow.
Qed.

Lemma comprehension_by_blocks_witness :
  8 <= 33 /\
  exists seen,
    comprehension 1 3 18 9 8 (fresh (fun i => Z.of_nat (11 * i)))
    = (Return (map (fun i => block_outcome (fun i => Z.of_nat (11 * i))
                                           (0 + 100 * i) 18 9 8)
                   (seq 0 3)),
       after (fresh (fun i => Z.of_nat (11 * i))) (100 * 3) seen 3).
Proof.
  split; [lia|].
  apply (comprehension_by_blocks 0 3 18 9 8 (fresh (fun i => Z.of_nat (11 * i)))).
  lia.
Defined.

(** X9.  With at least one repeat, a modifier that fits the 64-bit element
    type and a required number of 33 or less (so that [craft] never calls
    itself), the program does not raise: it prints exactly one line, which
    starts with [percent failure:], after one batch of 100 values per
    repeat. *)
Theorem main_with_returns :
  forall fuel dc modifier successes_required n_repeats w,
    1 <= n_repeats ->
    fits_int64 modifier = true ->
    successes_required <= 33 ->
    exists text seen,
      main_with (S fuel) dc modifier successes_required n_repeats w
      = print ("percent failure:" ++ text)
              (after w (100 * Z.to_nat n_repeats) seen (Z.to_nat n_repeats)).
Proof.
  intros fuel dc m req n w Hn Hm Hreq.
  destruct (comprehension_blocks fuel (Z.to_nat n) dc m req w Hreq Hm)
    as (seen & Hc).
  remember (map _ _) as outcomes eqn:Eo.
  assert (Hl : len outcomes = n).
  { unfold len. rewrite Eo, length_map, length_seq. lia. }
  exists (format_0f (percent_failure (sum outcomes) (len outcomes))), seen.
  unfold main_with, bind. rewrite Hc.
  destruct (Z.eqb_spec (len outcomes) 0) as [E|_]; [lia | reflexivity].
Qed.

Lemma main_with_returns_witness :
  1 <= 2 /\ fits_int64 9 = true /\ 8 <= 33 /\
  exists text seen,
    main_with 1 18 9 8 2 (fresh (fun i => Z.of_nat (11 * i)))
    = print ("percent failure:" ++ text)
            (after (fresh (fun i => Z.of_nat (11 * i)))
                   (100 * Z.to_nat 2) seen (Z.to_nat 2)).
Proof.
  split; [lia|]. split; [reflexivity|]. split; [lia|].
  apply (main_with_returns 0 18 9 8 2 (fresh (fun i => Z.of_nat (11 * i))));
    [lia | reflexivity | lia].
Defined.

(* ================================================================= *)
(** * The two extremes of the experiment *)

Lemma comprehension_hopeless fuel n dc m req : forall w,
  dc > m + 20 ->
  fits_int64 m = true ->
  comprehension (S fuel) n dc m req w
  = (Return (repeat false n), after w (100 * n) (3 * n) n).
Proof.
  induction n as [|n IH]; intros w H Hm.
  - cbn [comprehension repeat]. unfold ret.
    rewrite !Nat.mul_0_r, after_nothing. reflexivity.
  - cbn [comprehension repeat]. unfold bind.
    rewrite craft_hopeless, IH by assumption. unfold ret.
    rewrite after_after.
    apply (f_equal (fun w' => (Return (false :: repeat false n), w'))).
    apply after_eq; lia.
Qed.

(** Successes only: a required number of 100 or less is met within the
    first batch. *)
Lemma craft_certain_one_frame fuel dc m req w :
  dc <= m + 1 ->
  safe_modifier m = true ->
  1 <= req <= 100 ->
  craft (S fuel) dc m req 0 0 w = (Return true, after w 100 (Z.to_nat req) 1).
Proof.
  intros Hdc Hm Hreq. unfold craft.
  rewrite craft_chunked_step by (reflexivity || now apply safe_modifier_fits).
  cbv zeta. change (Z.to_nat ROLL_CHUNK) with 100%nat.
  rewrite checks_from_certain, for_loop_successes by (assumption || lia).
  destruct (Z.leb_spec (req - 0) (Z.of_nat 100)); [|lia].
  now rewrite Z.sub_0_r.
Qed.

Lemma comprehension_certain fuel n dc m req : forall w,
  dc <= m + 1 ->
  safe_modifier m = true ->
  1 <= req <= 100 ->
  comprehension (S fuel) n dc m req w
  = (Return (repeat true n), after w (100 * n) (Z.to_nat req * n) n).
Proof.
  induction n as [|n IH]; intros w Hdc Hm Hreq.
  - cbn [comprehension repeat]. unfold ret.
    rewrite !Nat.mul_0_r, after_nothing. reflexivity.
  - cbn [comprehension repeat]. unfold bind.
    rewrite craft_certain_one_frame, IH by assumption. unfold ret.
    rewrite after_after.
    apply (f_equal (fun w' => (Return (true :: repeat true n), w'))).
    apply after_eq; lia.
Qed.

Lemma sum_repeat_false n : sum (repeat false n) = 0.
Proof.
  rewrite sum_failures. unfold len, failures.
  rewrite repeat_length, count_occ_repeat_eq by reflexivity. lia.
Qed.

Lemma sum_repeat_true n : sum (repeat true n) = Z.of_nat n.
Proof.
  rewrite sum_failures. unfold len, failures.
  rewrite repeat_length, count_occ_repeat_neq by discriminate. lia.
Qed.

Lemma extremes_ok_all :
  forallb extremes_ok (map Z.of_nat (seq 1 (Z.to_nat 10000))) = true.
Proof. vm_compute. reflexivity. Qed.

Lemma extremes_ok_each n :
  1 <= n <= 10000 ->
  format_0f (percent_failure 0 n) = "100"%string /\
  format_0f (percent_failure n n) = "0"%string.
Proof.
  intros H. pose proof extremes_ok_all as A.
  rewrite forallb_forall in A.
  assert (Hin : In n (map Z.of_nat (seq 1 (Z.to_nat 10000)))).
  { apply in_map_iff. exists (Z.to_nat n). split; [lia|]. apply in_seq. lia. }
  apply A in Hin. unfold extremes_ok in Hin.
  apply andb_prop in Hin as [H1 H2].
  split; now apply String.eqb_eq.
Qed.

(** X10.  When no roll can reach the threshold ([dc > modifier + 20], with
    a modifier that fits the 64-bit element type) every attempt fails on its
    third result, and for every number of repeats from 1 to 10000 the
    program prints [percent failure:100], after three results looked at and
    100 values drawn per repeat. *)
Theorem hopeless_experiment_prints_100 :
  forall fuel dc modifier successes_required n_repeats w,
    dc > modifier + 20 ->
    fits_int64 modifier = true ->
    1 <= n_repeats <= 10000 ->
    main_with (S fuel) dc modifier successes_required n_repeats w
    = print "percent failure:100"
            (after w (100 * Z.to_nat n_repeats) (3 * Z.to_nat n_repeats)
                   (Z.to_nat n_repeats)).
Proof.
  intros fuel dc m req n w Hdc Hm Hn.
  unfold main_with, bind. rewrite comprehension_hopeless by assumption.
  unfold len. rewrite repeat_length, sum_repeat_false.
  rewrite Z2Nat.id by lia.
  destruct (Z.eqb_spec n 0); [lia|].
  destruct (extremes_ok_each n Hn) as [-> _]. reflexivity.
Qed.

Lemma hopeless_experiment_prints_100_witness :
  21 > 0 + 20 /\ fits_int64 0 = true /\ 1 <= 4 <= 10000 /\
  main_with 1 21 0 8 4 (fresh (fun i => Z.of_nat i))
  = print "percent failure:100"
          (after (fresh (fun i => Z.of_nat i))
                 (100 * Z.to_nat 4) (3 * Z.to_nat 4) (Z.to_nat 4)).
Proof.
  split; [lia|]. split; [reflexivity|]. split; [lia|].
  apply (hopeless_experiment_prints_100 0 21 0 8 4 (fresh (fun i => Z.of_nat i)));
    [lia | reflexivity | lia].
Defined.

(** X11.  When every roll reaches the threshold ([dc <= modifier + 1], with
    a safe modifier, between -2^63 and 2^63 - 21) every attempt succeeds;
    for every required number from 1 to 100 (met within the first batch) and
    every number of repeats from 1 to 10000 the program prints
    [percent failure:0]. *)
Theorem certain_experiment_prints_0 :
  forall fuel dc modifier successes_required n_repeats w,
    dc <= modifier + 1 ->
    safe_modifier modifier = true ->
    1 <= successes_required <= 100 ->
    1 <= n_repeats <= 10000 ->
    main_with (S fuel) dc modifier successes_required n_repeats w
    = print "percent failure:0"
            (after w (100 * Z.to_nat n_repeats)
                   (Z.to_nat successes_required * Z.to_nat n_repeats)
                   (Z.to_nat n_repeats)).
Proof.
  intros fuel dc m req n w Hdc Hm Hreq Hn.
  unfold main_with, bind. rewrite comprehension_certain by assumption.
  unfold len. rewrite repeat_length, sum_repeat_true.
  rewrite Z2Nat.id by lia.
  destruct (Z.eqb_spec n 0); [lia|].
  destruct (extremes_ok_each n Hn) as [_ ->]. reflexivity.
Qed.

Lemma certain_experiment_prints_0_witness :
  11 <= 11 + 1 /\ safe_modifier 11 = true /\ 1 <= 5 <= 100 /\
  1 <= 4 <= 10000 /\
  main_with 1 11 11 5 4 (fresh (fun i => Z.of_nat i))
  = print "percent failure:0"
          (after (fresh (fun i => Z.of_nat i))
                 (100 * Z.to_nat 4) (Z.to_nat 5 * Z.to_nat 4) (Z.to_nat 4)).
Proof.
  split; [lia|]. split; [reflexivity|]. split; [lia|]. split; [lia|].
  apply (certain_experiment_prints_0 0 11 11 5 4 (fresh (fun i => Z.of_nat i)));
    [lia | reflexivity | lia | lia].
Defined.

(* ================================================================= *)
(** * What an attempt depends on *)

(** X12.  The value of an attempt depends on the first [3 * max 1 required]
    rolls only: two generators that deliver the same rolls that far give the
    same value, whatever they deliver later. *)
Theorem craft_reads_prefix_only :
  forall fuel dc modifier successes_required w w',
    3 * Z.max 1 successes_required <= 100 * Z.of_nat fuel ->
    (forall i, Z.of_nat i < 3 * Z.max 1 successes_required ->
               entropy w (cursor w + i)%nat mod 20
               = entropy w' (cursor w' + i)%nat mod 20) ->
    fst (craft fuel dc modifier successes_required 0 0 w)
    = fst (craft fuel dc modifier successes_required 0 0 w').
Proof.
  intros fuel dc m req w w' Hfuel Hsame.
  destruct (fits_int64 m) eqn:Hm.
  - set (n0 := Z.to_nat (3 * Z.max 1 req)).
    destruct (craft_chunked_verdict ROLL_CHUNK fuel dc m req 0 0 w n0)
      as (b & k & w1 & Hrun1 & _ & Hloop1);
      [reflexivity | exact Hm | unfold budget, ROLL_CHUNK; lia
       | unfold budget; lia |].
    destruct (craft_chunked_verdict ROLL_CHUNK fuel dc m req 0 0 w' n0)
      as (b' & k' & w2 & Hrun2 & _ & Hloop2);
      [reflexivity | exact Hm | unfold budget, ROLL_CHUNK; lia
       | unfold budget; lia |].
    unfold craft. rewrite Hrun1, Hrun2. cbn [fst]. apply f_equal.
    apply verdict_inj.
    assert (E : checks_from (entropy w) (cursor w) dc m n0
                = checks_from (entropy w') (cursor w') dc m n0).
    { unfold checks_from. apply map_ext_in. intros i Hi. apply in_seq in Hi.
      unfold nth_check. rewrite Hsame by lia. reflexivity. }
    rewrite E in Hloop1. congruence.
  - rewrite !craft_overflow_any by (assumption || (unfold budget; lia)).
    reflexivity.
Qed.

Lemma craft_reads_prefix_only_witness :
  3 * Z.max 1 1 <= 100 * Z.of_nat 1 /\
  (forall i, Z.of_nat i < 3 * Z.max 1 1 ->
             entropy (fresh low_then_high)
                     (cursor (fresh low_then_high) + i)%nat
             mod 20
             = entropy (fresh all_low) (cursor (fresh all_low) + i)%nat
               mod 20) /\
  fst (craft 1 18 9 1 0 0 (fresh low_then_high))
  = fst (craft 1 18 9 1 0 0 (fresh all_low)).
Proof.
  assert (H : forall i, Z.of_nat i < 3 * Z.max 1 1 ->
             entropy (fresh low_then_high)
                     (cursor (fresh low_then_high) + i)%nat
             mod 20
             = entropy (fresh all_low) (cursor (fresh all_low) + i)%nat
               mod 20).
  { intros i Hi. cbn [entropy cursor fresh Nat.add]. unfold low_then_high, all_low.
    destruct (Nat.ltb_spec i 3); [reflexivity | lia]. }
  split; [lia|]. split; [exact H|].
  apply (craft_reads_prefix_only 1 18 9 1
           (fresh low_then_high) (fresh all_low)); [lia | exact H].
Defined.

(* ================================================================= *)
(** * Exactly when an attempt fails *)

(** X13.  An attempt from the default state has failed exactly when some
    prefix of the results handled ends with three failures and holds fewer
    successes than required (fewer than one, when the required number is not
    positive). *)
Theorem failed_iff :
  forall successes_required results,
    state_after successes_required results = Failed <->
    exists seen rest,
      results = seen ++ rest /\
      3 <= trailing_fails seen /\
      successes seen < Z.max 1 successes_required.
Proof.
  intros req results. split.
  - intros H. unfold state_after in H.
    destruct (for_loop req results 0 0 0) as [t k] eqn:E. cbn [fst] in H. subst t.
    pose proof (for_loop_accounting req results false k E) as A. cbv zeta in A.
    exists (firstn k results), (skipn k results).
    rewrite firstn_skipn. split; [reflexivity|]. lia.
  - intros (seen & rest & -> & Ht & Hs).
    assert (HF : state_after req seen = Failed).
    { destruct (state_after req seen) as [s f| |] eqn:E; [| |reflexivity].
      - destruct (state_after_counters req seen s f E) as [_ Hf].
        unfold state_after in E.
        destruct (for_loop req seen 0 0 0) as [t k] eqn:E'. cbn [fst] in E.
        subst t. apply for_loop_invariant in E'; lia.
      - unfold state_after in E.
        destruct (for_loop req seen 0 0 0) as [t k] eqn:E'. cbn [fst] in E.
        subst t.
        pose proof (for_loop_accounting req seen true k E') as A. cbv zeta in A.
        destruct A as (_ & A & _).
        rewrite <- (firstn_skipn k seen), successes_app in Hs.
        pose proof (successes_bounds (skipn k seen)). lia. }
    rewrite state_after_terminal_app; [exact HF | now rewrite HF].
Qed.
